(** * A shallow embedding of the Bun task runtime for AWS Lambda

    The runtime (the second document of [src/scripts/publish-layer.ts],
    starting at [type HandlerFunction]) polls the Lambda Runtime API for
    invocations, runs the user's handler against a deadline and reports
    the outcome.  The embedding keeps the functions and their names:
    [exit], [env], [lambdaFetch], [isSerializableError], [formatError],
    [sendInvocationResponse], [sendBaseError], [sendInitError],
    [sendInvocationError], [throwError], [init], [setTraceId],
    [resetTraceId], [receiveRequest] and the top-level [while (true)]
    loop.

    Effects are explicit: a computation is a function from the state of
    the process ([World]: [process.env], the clock, and the trace of what
    the process did) to either a value and a new state, or the state in
    which [process.exit] was called.  What the JavaScript platform and the
    host decide (JSON encoding, [Bun.inspect], URL resolution, the module
    loader, the answers of the Runtime API, the behaviour of user
    functions) is gathered in one record, [Platform], over which every
    definition is parametric.

    The publish command (the first document of the same file, [class
    PublishCommand]) is embedded in the module [PublishCommand], with
    the [aws] processes it starts as a second record of parameters. *)

From Stdlib Require Import ZArith Ascii.
From stdpp Require Import gmap strings list pretty.

Local Open Scope Z_scope.

(** ** JavaScript values *)

(** The values the runtime handles: parsed JSON events, handler results,
    thrown values, module namespace objects.  Functions are referred to
    by an identifier and run by the platform; a native failure (an
    instance of [Error]) carries its [name], its [message] and its
    [stack], which may be undefined. *)
#[warnings="-register-all"]
Inductive JsValue : Type :=
| JUndefined
| JNull
| JBool (b : bool)
| JNum (n : Z)
| JStr (s : string)
| JArr (items : list JsValue)
| JObj (fields : list (string * JsValue))
| JFun (fid : nat)
| JError (name message : string) (stack : option string).

(** [typeof v]. *)
Definition js_typeof (v : JsValue) : string :=
  match v with
  | JUndefined => "undefined"
  | JNull | JArr _ | JObj _ | JError _ _ _ => "object"
  | JBool _ => "boolean"
  | JNum _ => "number"
  | JStr _ => "string"
  | JFun _ => "function"
  end.

(** [v instanceof Error]. *)
Definition instanceof_Error (v : JsValue) : bool :=
  match v with
  | JError _ _ _ => true
  | _ => false
  end.

(** Own-property lookup in an object literal: the first binding of the
    key. *)
Fixpoint assoc (key : string) (fields : list (string * JsValue)) : option JsValue :=
  match fields with
  | [] => None
  | (k, v) :: rest => if String.eqb k key then Some v else assoc key rest
  end.

(** [key in v], for the keys the runtime asks about (["type"] and
    ["cause"]): a plain object has the key when it is one of its own
    fields; arrays have indices, [length] and their methods, none of
    which is one of the two keys; a native failure has [name], [message]
    and [stack]. *)
Definition js_in (key : string) (v : JsValue) : bool :=
  match v with
  | JObj fields => bool_decide (is_Some (assoc key fields))
  | JError _ _ stack =>
      String.eqb key "name" || String.eqb key "message"
      || (String.eqb key "stack" && bool_decide (is_Some stack))
  | _ => false
  end.

(** [v[key]] (also written [v.key]); a missing property reads as
    [undefined]. *)
Definition js_get (key : string) (v : JsValue) : JsValue :=
  match v with
  | JObj fields => default JUndefined (assoc key fields)
  | JError name message stack =>
      if String.eqb key "name" then JStr name
      else if String.eqb key "message" then JStr message
      else if String.eqb key "stack" then from_option JStr JUndefined stack
      else JUndefined
  | _ => JUndefined
  end.

(** [a ?? b]: [b] when [a] is [null] or [undefined]. *)
Definition nullish (a b : JsValue) : JsValue :=
  match a with
  | JUndefined | JNull => b
  | _ => a
  end.

(** ** Strings *)

Definition newline : ascii := ascii_of_nat 10.

(** [s.split(sep)] for a one-character separator: the pieces between
    the occurrences of [sep], the empty string giving one empty piece. *)
Fixpoint split (sep : ascii) (s : string) : list string :=
  match s with
  | EmptyString => [EmptyString]
  | String c rest =>
      if Ascii.eqb c sep then EmptyString :: split sep rest
      else match split sep rest with
           | [] => [String c EmptyString]
           | piece :: pieces => String c piece :: pieces
           end
  end.

(** [pieces.join(sep)], the inverse of [split]. *)
Fixpoint join (sep : ascii) (pieces : list string) : string :=
  match pieces with
  | [] => EmptyString
  | [piece] => piece
  | piece :: rest => piece +:+ String sep (join sep rest)
  end.

(** [s.startsWith(p)]. *)
Definition startsWith (p s : string) : bool := String.prefix p s.

(** [s.includes(t)]: [t] occurs in [s]. *)
Fixpoint includes (t s : string) : bool :=
  String.prefix t s ||
  match s with
  | EmptyString => false
  | String _ rest => includes t rest
  end.

(** [s.lastIndexOf(c)] for a one-character [c]: the position of its last
    occurrence, [-1] when there is none. *)
Fixpoint lastIndexOf_from (c : ascii) (s : string) (pos : Z) (found : Z) : Z :=
  match s with
  | EmptyString => found
  | String d rest =>
      lastIndexOf_from c rest (pos + 1) (if Ascii.eqb d c then pos else found)
  end.

Definition lastIndexOf (c : ascii) (s : string) : Z := lastIndexOf_from c s 0 (-1).

Definition str_length (s : string) : Z := Z.of_nat (String.length s).

(** [s.substring(start, end)]: both ends are clamped to [0 .. length]
    and swapped when [start > end]. *)
Definition substring (start stop : Z) (s : string) : string :=
  let clamp i := Z.max 0 (Z.min i (str_length s)) in
  let a := Z.min (clamp start) (clamp stop) in
  let b := Z.max (clamp start) (clamp stop) in
  String.substring (Z.to_nat a) (Z.to_nat (b - a)) s.

(** [s.substring(start)]. *)
Definition substring_from (start : Z) (s : string) : string :=
  substring start (str_length s) s.

(** ** The process and its surroundings *)

(** The second argument of [fetch]. *)
Record RequestInit : Type := {
  method : string;
  body : option string;            (* [null] and [undefined]: no body *)
  headers : list (string * JsValue)
}.

(** What [fetch] resolves to.  [headers_get] is the [get] method of the
    response's [Headers] object ([None] for JavaScript's [null]);
    [text] is the raw body. *)
Record Response : Type := {
  status : Z;
  headers_get : string -> option string;
  text : string
}.

(** [response.ok]: the status is in the range 200-299. *)
Definition ok (r : Response) : bool := (200 <=? status r) && (status r <=? 299).

(** How a call of a user function ends: the promise it returns is
    fulfilled with a value or rejected with one (a function that throws
    before returning counts as rejected at once: both are caught by the
    same [catch]) a number of milliseconds after the call, or it never
    settles. *)
Inductive Settled : Type :=
| Fulfilled (data : JsValue)
| Rejected (cause : JsValue).

Inductive HandlerRun : Type :=
| Settles (after : Z) (how : Settled)
| Pending.

(** How an operation that may throw completes ([import], [JSON.parse]). *)
Inductive Completion : Type :=
| Normal (value : JsValue)
| Throws (cause : JsValue).

(** What the process did, in order. *)
Inductive Event : Type :=
| EvConsoleError (args : list JsValue)
| EvFetch (href : string) (options : option RequestInit) (response : Response)
| EvImport (path : string)
| EvCall (fid : nat) (payload : JsValue) (trace_id : option string).

(** The state of the process: [process.env], the clock read by
    [Date.now()], and the trace of its actions so far. *)
Record World : Type := {
  process_env : gmap string string;
  clock : Z;
  trace : list Event
}.

(** The platform: the JavaScript built-ins the runtime calls, and the
    parties it talks to.  [host] answers the request made after the
    given history, with the time the answer takes; [call] runs a user
    function in the given state of the process. *)
Record Platform : Type := {
  JSON_stringify : JsValue -> option string;   (* [None]: [undefined] *)
  JSON_parse : string -> Completion;
  Bun_inspect : JsValue -> string;
  String_of : JsValue -> string;               (* [`${v}`] *)
  parseInt : string -> option Z;               (* [None]: [NaN] *)
  URL_href : string -> string -> string;       (* [new URL(url, base).href] *)
  import_ : string -> Completion;
  host : list Event -> string -> option RequestInit -> Z * Response;
  call : nat -> World -> JsValue -> HandlerRun
}.

(** ** Computations *)

(** A computation returns a value in a new state, or ends the process
    with an exit status. *)
Inductive Result (A : Type) : Type :=
| Return (a : A) (w : World)
| Exited (code : Z) (w : World).
Arguments Return {A} a w.
Arguments Exited {A} code w.

Definition M (A : Type) : Type := World -> Result A.

(** The state in which a computation stopped. *)
Definition state_of {A} (r : Result A) : World :=
  match r with
  | Return _ w => w
  | Exited _ w => w
  end.

Definition ret {A} (a : A) : M A := fun w => Return a w.

Definition bind {A B} (m : M A) (k : A -> M B) : M B :=
  fun w =>
    match m w with
    | Return a w' => k a w'
    | Exited code w' => Exited code w'
    end.

Declare Scope js_scope.
Delimit Scope js_scope with js.
Notation "x <- m ;; k" := (bind m (fun x => k))
  (at level 100, m at next level, right associativity) : js_scope.
Notation "m ;; k" := (bind m (fun _ => k))
  (at level 100, right associativity) : js_scope.
Local Open Scope js_scope.

Definition emit (e : Event) : M unit :=
  fun w => Return tt {| process_env := process_env w; clock := clock w;
                        trace := trace w ++ [e] |}.

Definition sleep (ms : Z) : M unit :=
  fun w => Return tt {| process_env := process_env w; clock := clock w + ms;
                        trace := trace w |}.

(** [Date.now()]. *)
Definition Date_now : M Z := fun w => Return (clock w) w.

(** [process.env[name]]. *)
Definition getenv (name : string) : M (option string) :=
  fun w => Return (process_env w !! name) w.

(** [function exit(...cause): never] *)
Definition exit {A} (cause : list JsValue) : M A :=
  fun w => Exited 1 {| process_env := process_env w; clock := clock w;
                       trace := trace w ++ [EvConsoleError cause] |}.

(** [function env(name, fallback?)] *)
Definition env (name : string) (fallback : option string) : M string :=
  value <- getenv name ;;
  match value with
  | Some v => ret v
  | None =>
      match fallback with
      | Some v => ret v
      | None =>
          exit [JStr ("Runtime failed to find the '" +:+ name
                      +:+ "' environment variable")]
      end
  end.

(** [function setTraceId(traceId)] *)
Definition setTraceId (traceId : string) : M unit :=
  fun w => Return tt {| process_env := <["_X_AMZN_TRACE_ID" := traceId]> (process_env w);
                        clock := clock w; trace := trace w |}.

(** [function resetTraceId()] *)
Definition resetTraceId : M unit :=
  fun w => Return tt {| process_env := delete "_X_AMZN_TRACE_ID" (process_env w);
                        clock := clock w; trace := trace w |}.

(** ** The runtime *)

Definition is_undefined (v : JsValue) : bool :=
  match v with
  | JUndefined => true
  | _ => false
  end.

Definition is_null (v : JsValue) : bool :=
  match v with
  | JNull => true
  | _ => false
  end.

(** [type LambdaError] *)
Record LambdaError : Type := {
  errorType : JsValue;
  errorMessage : string;
  stackTrace : option (list string)
}.

(** The object [JSON.stringify] is given for a [LambdaError]; a
    [stackTrace] that is missing or undefined is left out, as
    [JSON.stringify] leaves it out. *)
Definition LambdaError_value (e : LambdaError) : JsValue :=
  JObj ([("errorType", errorType e); ("errorMessage", JStr (errorMessage e))]
        ++ match stackTrace e with
           | Some lines => [("stackTrace", JArr (JStr <$> lines))]
           | None => []
           end).

(** [type LambdaRequest] *)
Record LambdaRequest : Type := {
  requestId : string;
  traceId : string;
  deadlineMs : option Z;
  event : JsValue
}.

(** What [await Promise.race([...])] gives in the loop: one of the two
    objects [{ data, timeout }], or the value thrown. *)
Record RaceResult : Type := {
  data : JsValue;
  timeout : bool
}.

Inductive Awaited : Type :=
| Value (result : RaceResult)
| Thrown (cause : JsValue).

(** [function isSerializableError(error)] *)
Definition isSerializableError (error : JsValue) : bool :=
  instanceof_Error error
  || (String.eqb (js_typeof error) "object"
      && negb (is_null error)
      && js_in "type" error
      && js_in "cause" error).

(** [Promise.race] of the handler's promise and the timer created by
    [setTimeout(resolve, durationMs)]: the handler wins when it settles
    before the timer fires; the result comes with the time the [await]
    took.  A handler that settles with a value gives
    [{ data, timeout: false }], the timer gives
    [{ data: null, timeout: true }], a rejection is thrown. *)
Definition Promise_race (run : HandlerRun) (durationMs : Z) : Z * Awaited :=
  match run with
  | Settles after how =>
      if after <? durationMs then
        (after,
         match how with
         | Fulfilled d => Value {| data := d; timeout := false |}
         | Rejected cause => Thrown cause
         end)
      else (durationMs, Value {| data := JNull; timeout := true |})
  | Pending => (durationMs, Value {| data := JNull; timeout := true |})
  end.

Section Runtime.

Context (P : Platform).

(** [await fetch(href, options)] *)
Definition fetch (href : string) (options : option RequestInit) : M Response :=
  fun w =>
    let '(delay, response) := host P (trace w) href options in
    Return response
      {| process_env := process_env w; clock := clock w + delay;
         trace := trace w ++ [EvFetch href options response] |}.

(** [function formatError(error)] *)
Definition formatError (error : JsValue) : LambdaError :=
  match error with
  | JError name message stack =>
      {| errorType := JStr name;
         errorMessage := message;
         stackTrace := split newline <$> stack |}
  | _ =>
      {| errorType := js_get "type" error;
         errorMessage := Bun_inspect P (js_get "cause" error);
         stackTrace := None |}
  end.

(** The options [sendBaseError] passes to [fetch] for a formatted
    error. *)
Definition error_options (formatted : LambdaError) : RequestInit :=
  {| method := "POST";
     body := JSON_stringify P (LambdaError_value formatted);
     headers := [("Lambda-Runtime-Function-Error-Type", errorType formatted);
                 ("Content-Type", JStr "application/vnd.aws.lambda.error+json")] |}.

(** The options [sendInvocationResponse] passes to [fetch]. *)
Definition response_options (body : option string) : RequestInit :=
  {| method := "POST";
     body := body;
     headers := [("Content-Type", JStr "application/json")] |}.

(** The [catch] block of the loop, before it reports: a caught value
    that is not a serializable error is wrapped as an
    ["UnknownError"]. *)
Definition serializable (cause : JsValue) : JsValue :=
  if negb (isSerializableError cause)
  then JObj [("type", JStr "UnknownError"); ("cause", cause)]
  else cause.

(** [lambda(event)]: the platform runs the function in the current
    state of the process.  [init] only ever returns a function; calling
    anything else throws a [TypeError]. *)
Definition invoke (lambda payload : JsValue) : M HandlerRun :=
  fun w =>
    match lambda with
    | JFun fid =>
        Return (call P fid w payload)
          {| process_env := process_env w; clock := clock w;
             trace := trace w
                      ++ [EvCall fid payload (process_env w !! "_X_AMZN_TRACE_ID")] |}
    | _ =>
        Return (Settles 0 (Rejected (JError "TypeError" "lambda is not a function" None))) w
    end.

(** The budget of an invocation:
    [Math.max(1, (deadlineMs === null ? Date.now() + 60_000 : deadlineMs) - Date.now())] *)
Definition durationMs (deadlineMs : option Z) : M Z :=
  target <- match deadlineMs with
            | None => (now <- Date_now ;; ret (now + 60000))
            | Some deadline => ret deadline
            end ;;
  now <- Date_now ;;
  ret (Z.max 1 (target - now)).

Section Client.

(** [const runtimeUrl] *)
Variable runtimeUrl : string.

(** [function lambdaFetch(url, options?)] *)
Definition lambdaFetch (url : string) (options : option RequestInit) : M Response :=
  let href := URL_href P url runtimeUrl in
  response <- fetch href options ;;
  if negb (ok response) then
    exit [JStr ("Runtime failed to send request to Lambda [status: "
                +:+ String_of P (JNum (status response)) +:+ "]")]
  else ret response.

(** [function fetchNextInvocation()] *)
Definition fetchNextInvocation : M Response :=
  lambdaFetch "invocation/next" None.

(** [function sendInvocationResponse(requestId, body)] *)
Definition sendInvocationResponse (requestId : string) (body : option string) : M Response :=
  lambdaFetch ("invocation/" +:+ requestId +:+ "/response")
    (Some (response_options body)).

(** [function sendBaseError(url, error)] *)
Definition sendBaseError (url : string) (error : JsValue) : M Response :=
  let formatted := formatError error in
  lambdaFetch url (Some (error_options formatted)).

(** [function sendInitError(error)] *)
Definition sendInitError (error : JsValue) : M Response :=
  sendBaseError "init/error" error.

(** [function sendInvocationError(requestId, error)] *)
Definition sendInvocationError (requestId : string) (error : JsValue) : M Response :=
  sendBaseError ("invocation/" +:+ requestId +:+ "/error") error.

(** [function throwError(error, requestId?): Promise<never>] *)
Definition throwError {A} (error : JsValue) (requestId : option string) : M A :=
  emit (EvConsoleError [error]) ;;
  match requestId with
  | Some id => sendInvocationError id error
  | None => sendInitError error
  end ;;
  exit [].

(** [function init(): Promise<HandlerFunction>] *)
Definition init : M JsValue :=
  handlerName <- env "_HANDLER" None ;;
  let index := lastIndexOf "."%char handlerName in
  let fileName := substring 0 index handlerName in
  root <- env "LAMBDA_TASK_ROOT" None ;;
  let filePath := root +:+ "/" +:+ fileName in
  emit (EvImport filePath) ;;
  match import_ P filePath with
  | Throws cause =>
      if instanceof_Error cause
         && match cause with
            | JError _ message _ => startsWith "Cannot find module" message
            | _ => false
            end
      then
        throwError
          (JObj [("type", JStr "FileDoesNotExist");
                 ("cause", JStr ("Did not find a file named '" +:+ fileName +:+ "'"))])
          None
      else throwError (JObj [("type", JStr "InitError"); ("cause", cause)]) None
  | Normal file =>
      let moduleName := substring_from (index + 1) handlerName in
      (* prefer the default export if it exists *)
      let handler := nullish (js_get "default" file) (js_get moduleName file) in
      if negb (String.eqb (js_typeof handler) "function") then
        throwError
          (JObj [("type", JStr (if is_undefined handler
                                then "MethodDoesNotExist"
                                else "MethodIsNotAFunction"));
                 ("cause", JStr (fileName +:+ " does not an function export '"
                                 +:+ moduleName +:+ "' (handler is "
                                 +:+ String_of P handler +:+ ")"))])
          None
      else ret handler
  end.

(** [function receiveRequest(): Promise<LambdaRequest>] *)
Definition receiveRequest : M LambdaRequest :=
  response <- fetchNextInvocation ;;
  match headers_get response "Lambda-Runtime-Aws-Request-Id" with
  | None => exit [JStr "Runtime received a request without a request ID"]
  | Some requestId =>
      match headers_get response "Lambda-Runtime-Trace-Id" with
      | None => exit [JStr "Runtime received a request without a trace ID"]
      | Some traceId =>
          let deadlineMs :=
            match parseInt P (default "0" (headers_get response "Lambda-Runtime-Deadline-Ms")) with
            | Some n => if n =? 0 then None else Some n
            | None => None
            end in
          match JSON_parse P (text response) with
          | Throws cause =>
              exit [JStr "Runtime received a request with invalid JSON"; cause]
          | Normal event =>
              ret {| requestId := requestId; traceId := traceId;
                     deadlineMs := deadlineMs; event := event |}
          end
      end
  end.

(** The loop body after the [await] of the race: the [catch] block
    with the [finally] block behind it when the handler threw (a
    [process.exit] inside the [catch] block ends the process at
    once, so the [finally] block runs only when the report has been
    sent); otherwise the [finally] block and then the rest of the
    body. *)
Definition report (request : LambdaRequest) (duration : Z) (awaited : Awaited) : M unit :=
  match awaited with
  | Thrown cause =>
      let se := serializable cause in
      sendInvocationError (requestId request) se ;;
      resetTraceId
  | Value result =>
      resetTraceId ;;
      if timeout result then
        sendInvocationError (requestId request)
          (JObj [("type", JStr "TimeoutError");
                 ("cause", JStr ("Function timed out after "
                                 +:+ String_of P (JNum duration) +:+ "ms"))]) ;;
        ret tt
      else
        sendInvocationResponse (requestId request)
          (match data result with
           | JNull => None
           | JStr s => Some s
           | other => JSON_stringify P other
           end) ;;
        ret tt
  end.

(** One turn of the [while (true)] loop, from the poll to the
    [continue] or the end of the body. *)
Definition iteration (lambda : JsValue) : M unit :=
  request <- receiveRequest ;;
  duration <- durationMs (deadlineMs request) ;;
  setTraceId (traceId request) ;;
  run <- invoke lambda (event request) ;;
  let '(elapsed, awaited) := Promise_race run duration in
  sleep elapsed ;;
  report request duration awaited.

(** The loop, run for a number of turns. *)
Fixpoint loop (turns : nat) (lambda : JsValue) : M unit :=
  match turns with
  | O => ret tt
  | S n => iteration lambda ;; loop n lambda
  end.

End Client.

(** The program: [runtimeUrl] is computed when the module is loaded,
    then the handler is resolved, then the loop runs. *)
Definition main (turns : nat) : M unit :=
  api <- env "AWS_LAMBDA_RUNTIME_API" None ;;
  let runtimeUrl := "http://" +:+ api +:+ "/2018-06-01/runtime/" in
  lambda <- init runtimeUrl ;;
  loop runtimeUrl turns lambda.

End Runtime.

(** ** A sample platform

    A small concrete platform on which the runtime can be run: JSON
    without escapes, decimal integers, URLs resolved by concatenation, a
    task root with one module, a host that answers every poll with the
    same response and every report with the same status, and user
    functions that all behave the same way. *)
Module Sample.

Definition dquote : string := String (ascii_of_nat 34) EmptyString.

Definition quote (s : string) : string := dquote +:+ s +:+ dquote.

Fixpoint commas (pieces : list string) : string :=
  match pieces with
  | [] => EmptyString
  | [piece] => piece
  | piece :: rest => piece +:+ "," +:+ commas rest
  end.

Fixpoint json (v : JsValue) : string :=
  match v with
  | JUndefined | JNull | JFun _ => "null"
  | JBool true => "true"
  | JBool false => "false"
  | JNum n => pretty n
  | JStr s => quote s
  | JArr items => "[" +:+ commas (map json items) +:+ "]"
  | JObj fields =>
      "{" +:+ commas (map (fun kv => quote (fst kv) +:+ ":" +:+ json (snd kv)) fields) +:+ "}"
  | JError _ _ _ => "{}"
  end.

Definition stringify (v : JsValue) : option string :=
  match v with
  | JUndefined | JFun _ => None
  | _ => Some (json v)
  end.

Definition parse (s : string) : Completion :=
  if String.eqb s "null" then Normal JNull
  else if String.eqb s "true" then Normal (JBool true)
  else if String.eqb s "false" then Normal (JBool false)
  else if String.eqb s "{}" then Normal (JObj [])
  else Throws (JError "SyntaxError" "JSON Parse error: Unexpected token" None).

Definition inspect (v : JsValue) : string :=
  match v with
  | JUndefined => "undefined"
  | JFun _ => "[Function]"
  | JError name message _ => name +:+ ": " +:+ message
  | _ => json v
  end.

Definition to_string (v : JsValue) : string :=
  match v with
  | JUndefined => "undefined"
  | JNull => "null"
  | JBool true => "true"
  | JBool false => "false"
  | JNum n => pretty n
  | JStr s => s
  | JArr _ => EmptyString
  | JObj _ => "[object Object]"
  | JFun _ => "function () {}"
  | JError name message _ => name +:+ ": " +:+ message
  end.

Fixpoint digits (s : string) (acc : Z) : option Z :=
  match s with
  | EmptyString => Some acc
  | String c rest =>
      let d := Z.of_nat (nat_of_ascii c) - 48 in
      if (0 <=? d) && (d <=? 9) then digits rest (10 * acc + d) else None
  end.

Definition parse_int (s : string) : option Z :=
  match s with
  | EmptyString => None
  | _ => digits s 0
  end.

Definition import_file (path : string) : Completion :=
  if String.eqb path "/var/task/main"
  then Normal (JObj [("handler", JFun 7)])
  else if String.eqb path "/var/task/both"
  then Normal (JObj [("default", JFun 1); ("handler", JFun 2)])
  else if String.eqb path "/var/task/data"
  then Normal (JObj [("handler", JNum 5)])
  else Throws (JError "ResolveMessage" ("Cannot find module '" +:+ path +:+ "'") None).

(** An answer without headers and without body. *)
Definition answer (status : Z) : Response :=
  {| status := status; headers_get := fun _ => None; text := EmptyString |}.

(** The host: [next] answers a request without options (the poll),
    [report] is the status of the answer to every other request. *)
Definition serve (next : Response) (report : Z)
    (history : list Event) (href : string) (options : option RequestInit) : Z * Response :=
  match options with
  | None => (5, next)
  | Some _ => (2, answer report)
  end.

Definition platform (next : Response) (report : Z) (run : HandlerRun) : Platform :=
  {| JSON_stringify := stringify;
     JSON_parse := parse;
     Bun_inspect := inspect;
     String_of := to_string;
     parseInt := parse_int;
     URL_href := fun url base => base +:+ url;
     import_ := import_file;
     host := serve next report;
     call := fun _ _ _ => run |}.

(** A poll response: status 200, the given headers, the given body. *)
Definition invocation (id tid deadline : option string) (text : string) : Response :=
  {| status := 200;
     headers_get := fun name =>
       if String.eqb name "Lambda-Runtime-Aws-Request-Id" then id
       else if String.eqb name "Lambda-Runtime-Trace-Id" then tid
       else if String.eqb name "Lambda-Runtime-Deadline-Ms" then deadline
       else None;
     text := text |}.

Definition process (handler : string) : World :=
  {| process_env := <["AWS_LAMBDA_RUNTIME_API" := "127.0.0.1:9001"]>
                      (<["_HANDLER" := handler]>
                         (<["LAMBDA_TASK_ROOT" := "/var/task"]> ∅));
     clock := 1000;
     trace := [] |}.

Definition runtimeUrl : string := "http://127.0.0.1:9001/2018-06-01/runtime/".

End Sample.

(** ** Sample runs

    Platforms and starting states on which the runtime is run below. *)

Module Runs.

Import Sample.

(** An invocation with request id [r1], trace id [t1], the deadline
    1500 and the event [{}]; the process starts at time 1000 and the
    poll takes 5 milliseconds, so the budget is 495 milliseconds. *)
Definition event1 : Response :=
  invocation (Some "r1") (Some "t1") (Some "1500") "{}".

Definition main_handler : World := process "main.handler".

(** The handler throws the number 4 after 3 milliseconds. *)
Definition throwing : Platform := platform event1 202 (Settles 3 (Rejected (JNum 4))).

(** The handler never settles. *)
Definition hanging : Platform := platform event1 202 Pending.

(** The handler returns an object after 10 milliseconds. *)
Definition returning : Platform :=
  platform event1 202 (Settles 10 (Fulfilled (JObj [("n", JNum 1)]))).

(** The host sends an invocation without a trace id. *)
Definition headless : Platform :=
  platform (invocation (Some "r1") None None "{}") 202 Pending.

End Runs.

(** ** States of a turn of the loop

    The states the process goes through in one turn, used to state what
    the loop does. *)

(** The state in which [lambdaFetch] ends the process when the host
    answers [response], after [delay] milliseconds, with a status that is
    not a success. *)
Definition refused (P : Platform) (w : World) (href : string)
    (options : option RequestInit) (delay : Z) (response : Response) : World :=
  {| process_env := process_env w;
     clock := clock w + delay;
     trace := trace w
              ++ [EvFetch href options response;
                  EvConsoleError
                    [JStr ("Runtime failed to send request to Lambda [status: "
                           +:+ String_of P (JNum (status response)) +:+ "]")]] |}.

(** The state after a request that the host answered with success. *)
Definition answered (w : World) (href : string)
    (options : option RequestInit) (delay : Z) (response : Response) : World :=
  {| process_env := process_env w;
     clock := clock w + delay;
     trace := trace w ++ [EvFetch href options response] |}.

(** The state in which [throwError] ends the process at cold start, [w]
    being the state in which it is called: the error is written to the
    console and sent as an initialization error, and the process exits
    whatever the host answers. *)
Definition init_failure (P : Platform) (runtimeUrl : string) (error : JsValue)
    (w : World) : World :=
  let href := URL_href P "init/error" runtimeUrl in
  let options := Some (error_options P (formatError P error)) in
  let said := trace w ++ [EvConsoleError [error]] in
  let answer := host P said href options in
  {| process_env := process_env w;
     clock := clock w + answer.1;
     trace := said
              ++ [EvFetch href options answer.2;
                  EvConsoleError
                    (if ok answer.2 then []
                     else [JStr ("Runtime failed to send request to Lambda [status: "
                                 +:+ String_of P (JNum (status answer.2)) +:+ "]")])] |}.

(** The state after [import(filePath)] has been tried. *)
Definition importing (w : World) (filePath : string) : World :=
  {| process_env := process_env w;
     clock := clock w;
     trace := trace w ++ [EvImport filePath] |}.

(** The deadline [receiveRequest] reads from a poll response. *)
Definition deadline_of (P : Platform) (response : Response) : option Z :=
  match parseInt P (default "0" (headers_get response "Lambda-Runtime-Deadline-Ms")) with
  | Some n => if n =? 0 then None else Some n
  | None => None
  end.

(** The budget of an invocation received at time [now]. *)
Definition budget_of (deadline : option Z) (now : Z) : Z :=
  Z.max 1 (match deadline with
           | None => now + 60000
           | Some deadline => deadline
           end - now).

(** The state in which the handler is called, [w] being the state after
    the poll. *)
Definition at_call (w : World) (tid : string) : World :=
  {| process_env := <["_X_AMZN_TRACE_ID" := tid]> (process_env w);
     clock := clock w;
     trace := trace w |}.

(** The state after the race, [elapsed] milliseconds after the call. *)
Definition after_race (w : World) (tid : string) (fid : nat) (payload : JsValue)
    (elapsed : Z) : World :=
  {| process_env := <["_X_AMZN_TRACE_ID" := tid]> (process_env w);
     clock := clock w + elapsed;
     trace := trace w ++ [EvCall fid payload (Some tid)] |}.

(** The state once [resetTraceId] has run. *)
Definition cleared (w : World) : World :=
  {| process_env := delete "_X_AMZN_TRACE_ID" (process_env w);
     clock := clock w;
     trace := trace w |}.

(** The state at the end of the turn, [w] being the state after the
    race: the outcome has been sent, the host has answered, and the
    trace id is cleared. *)
Definition reported (w : World) (href : string) (options : RequestInit)
    (delay : Z) (response : Response) : World :=
  {| process_env := delete "_X_AMZN_TRACE_ID" (process_env w);
     clock := clock w + delay;
     trace := trace w ++ [EvFetch href (Some options) response] |}.

(** A computation [grows] when it leaves the past of the trace as it
    is: whatever it does is added at the end. *)
Definition grows {A} (m : M A) : Prop :=
  forall w, trace w `prefix_of` trace (state_of (m w)).

(** ** Shapes of a run

    What the trace of a run that is still going looks like, and what a
    computation leaves alone in the environment. *)


(** A computation [keeps_env] when the only environment variable it may
    change is the trace id slot. *)
Definition keeps_env {A} (m : M A) : Prop :=
  forall w name,
    name <> "_X_AMZN_TRACE_ID" ->
    process_env (state_of (m w)) !! name = process_env w !! name.

(** ** The publish command

    [class PublishCommand] (the first document of
    [src/scripts/publish-layer.ts]): it checks that the [aws] command
    line is there, works out the regions, and publishes every layer in
    every region.  The parsed flags are its input.  A command is a
    function from what it has done so far to how it ends: it finishes,
    or it throws, or it is stopped by [this.error], which does not
    return.  The shell (what the [aws] processes answer, [trim], the
    failures the engine raises) is one more record of parameters, next
    to the platform. *)
Module PublishCommand.

(** What [spawnSync] returns: the exit status ([None]: [null], no exit
    status) and the two outputs ([None]: [null], no output). *)
Record SpawnSyncReturns : Type := {
  sp_status : option Z;
  sp_stdout : option string;
  sp_stderr : option string
}.

(** What the command did, in order. *)
Inductive Action : Type :=
| Debug (args : list JsValue)
| Log (args : list JsValue)
| Spawn (args : list JsValue) (returned : SpawnSyncReturns).

Record Shell : Type := {
  spawnSync : list Action -> list JsValue -> SpawnSyncReturns;   (* of the [aws] command *)
  trim : string -> string;
  Error_stack : string -> option string;      (* the stack of [new Error(message)] *)
  TypeError : JsValue -> JsValue;             (* thrown on a property of [null], on a
                                                 value that cannot be iterated *)
  iterate : JsValue -> option (list JsValue)  (* [for ... of] on what is not an array;
                                                 [None]: it cannot be iterated *)
}.

(** The flags the command reads, and the whole object as [this.parse]
    returns it. *)
Record Flags : Type := {
  flags_object : JsValue;
  layer : list string;
  region : list string;
  arch : string;
  output : string
}.

Inductive Outcome (A : Type) : Type :=
| Finished (a : A) (past : list Action)
| Threw (cause : JsValue) (past : list Action)
| Stopped (message : string) (code : Z) (past : list Action).
Arguments Finished {A} a past.
Arguments Threw {A} cause past.
Arguments Stopped {A} message code past.

Definition C (A : Type) : Type := list Action -> Outcome A.

Definition pure {A} (a : A) : C A := fun past => Finished a past.

Definition throw {A} (cause : JsValue) : C A := fun past => Threw cause past.

Definition andThen {A B} (c : C A) (k : A -> C B) : C B :=
  fun past =>
    match c past with
    | Finished a past' => k a past'
    | Threw cause past' => Threw cause past'
    | Stopped message code past' => Stopped message code past'
    end.

(** [try { c } catch (error) { handler }] *)
Definition try_catch {A} (c : C A) (handler : JsValue -> C A) : C A :=
  fun past =>
    match c past with
    | Threw cause past' => handler cause past'
    | other => other
    end.

(** What a command has done when it ends. *)
Definition actions_of {A} (o : Outcome A) : list Action :=
  match o with
  | Finished _ past => past
  | Threw _ past => past
  | Stopped _ _ past => past
  end.

(** The argument lists of the [aws] processes among some actions. *)
Fixpoint spawned (past : list Action) : list (list JsValue) :=
  match past with
  | [] => []
  | Spawn args _ :: rest => args :: spawned rest
  | _ :: rest => spawned rest
  end.

(** [this.debug(...args)] *)
Definition debug (args : list JsValue) : C unit :=
  fun past => Finished tt (past ++ [Debug args]).

(** [this.log(...args)] *)
Definition log (args : list JsValue) : C unit :=
  fun past => Finished tt (past ++ [Log args]).

(** [this.error(message, { exit: code })] *)
Definition error {A} (message : string) (code : Z) : C A :=
  fun past => Stopped message code past.

(** [for (const x of xs) body(x)] *)
Fixpoint for_each {A} (xs : list A) (body : A -> C unit) : C unit :=
  match xs with
  | [] => pure tt
  | x :: rest => andThen (body x) (fun _ => for_each rest body)
  end.

(** The pairs the two nested loops of [run] go through, in order. *)
Definition pairs {A B} (xs : list A) (ys : list B) : list (A * B) :=
  flat_map (fun x => map (pair x) ys) xs.

Definition install_message : string :=
  "Install the `aws` CLI to continue: https://docs.aws.amazon.com/cli/latest/userguide/getting-started-install.html".

Definition version_args : list JsValue := [JStr "--version"].

Definition describe_regions_args : list JsValue :=
  [JStr "ec2"; JStr "describe-regions"; JStr "--query"; JStr "Regions[].RegionName";
   JStr "--output"; JStr "json"].

Definition configured_region_args : list JsValue :=
  [JStr "configure"; JStr "get"; JStr "region"].

(** The arguments of the call that publishes one layer in one region. *)
Definition publish_args (arch output : string) (regionName layerName : JsValue)
    : list JsValue :=
  [JStr "lambda";
   JStr "publish-layer-version";
   JStr "--layer-name";
   layerName;
   JStr "--region";
   regionName;
   JStr "--description";
   JStr "Run bun tasks";
   JStr "--license-info";
   JStr "MIT";
   JStr "--compatible-architectures";
   JStr (if String.eqb arch "x64" then "x86_64" else "arm64");
   JStr "--compatible-runtimes";
   JStr "provided.al2023";
   JStr "provided";
   JStr "--zip-file";
   JStr ("fileb://" +:+ output);
   JStr "--output";
   JStr "json"].

Section Command.

Context (P : Platform) (sh : Shell).

(** [args.join(" ")]: [null] and [undefined] give the empty string. *)
Fixpoint join_args (args : list JsValue) : string :=
  let piece v := match v with
                 | JNull | JUndefined => EmptyString
                 | _ => String_of P v
                 end in
  match args with
  | [] => EmptyString
  | [v] => piece v
  | v :: rest => piece v +:+ " " +:+ join_args rest
  end.

(** [spawnSync("aws", args, { stdio: "pipe" })] *)
Definition spawn (args : list JsValue) : C SpawnSyncReturns :=
  fun past =>
    let returned := spawnSync sh past args in
    Finished returned (past ++ [Spawn args returned]).

(** [JSON.parse(text)] *)
Definition parse (text : string) : C JsValue :=
  match JSON_parse P text with
  | Normal value => pure value
  | Throws cause => throw cause
  end.

(** [#aws(args)] *)
Definition aws (args : list JsValue) : C string :=
  andThen (debug (JStr "$" :: JStr "aws" :: args)) (fun _ =>
  andThen (spawn args) (fun returned =>
  match sp_stdout returned with
  | None => throw (TypeError sh JNull)
  | Some stdout =>
      let result := trim sh stdout in
      match sp_status returned with
      | Some 0 => pure result
      | code =>
          match sp_stderr returned with
          | None => throw (TypeError sh JNull)
          | Some stderr =>
              let reason := match trim sh stderr with
                            | EmptyString => result
                            | text => text
                            end in
              let message :=
                "aws " +:+ join_args args +:+ " exited with "
                +:+ String_of P (from_option JNum JNull code) +:+ ": " +:+ reason in
              throw (JError "Error" message (Error_stack sh message))
          end
      end
  end)).

(** [for (const name of value) region.push(name)], [region] being
    empty: the names of the regions to publish to. *)
Definition names_of (value : JsValue) : C (list JsValue) :=
  match value with
  | JArr items => pure items
  | other =>
      match iterate sh other with
      | Some items => pure items
      | None => throw (TypeError sh other)
      end
  end.

(** [const { LayerVersionArn } = value] *)
Definition LayerVersionArn (value : JsValue) : C JsValue :=
  match value with
  | JNull | JUndefined => throw (TypeError sh value)
  | _ => pure (js_get "LayerVersionArn" value)
  end.

(** The body of the inner loop of [run]. *)
Definition publish (arch output : string) (regionName layerName : JsValue) : C unit :=
  andThen (aws (publish_args arch output regionName layerName)) (fun result =>
  andThen (parse result) (fun parsed =>
  andThen (LayerVersionArn parsed) (fun arn =>
  log [JStr "Published"; arn]))).

(** The regions to publish to: all the regions [aws] lists when the
    flags have a ["*"], the configured region when the flags have none,
    the regions of the flags otherwise. *)
Definition regions (flags : Flags) : C (list JsValue) :=
  if existsb (String.eqb "*") (region flags) then
    andThen (aws describe_regions_args) (fun result =>
    andThen (parse result) names_of)
  else
    match region flags with
    | [] => andThen (aws configured_region_args) (fun name => pure [JStr name])
    | given => pure (JStr <$> given)
    end.

(** The [aws] call with these arguments always exits with status 0 and
    some output. *)
Definition answers (args : list JsValue) : Prop :=
  forall past,
    exists stdout,
      sp_status (spawnSync sh past args) = Some 0
      /\ sp_stdout (spawnSync sh past args) = Some stdout.

(** The [aws] call with these arguments always exits with status 0 and
    its output, once trimmed, is JSON for something other than
    [null]. *)
Definition publishes (args : list JsValue) : Prop :=
  forall past,
    exists stdout value,
      sp_status (spawnSync sh past args) = Some 0
      /\ sp_stdout (spawnSync sh past args) = Some stdout
      /\ JSON_parse P (trim sh stdout) = Normal value
      /\ is_null value = false /\ is_undefined value = false.

(** [async run()], after [this.parse]. *)
Definition run (flags : Flags) : C unit :=
  andThen (debug [JStr "Options:"; flags_object flags]) (fun _ =>
  andThen (try_catch
             (andThen (aws version_args) (fun version =>
              debug [JStr "AWS CLI:"; JStr version]))
             (fun caught =>
                andThen (debug [caught]) (fun _ => error install_message 1))) (fun _ =>
  andThen (regions flags) (fun region =>
  andThen (log [JStr "Publishing..."]) (fun _ =>
  andThen (for_each region (fun regionName =>
             for_each (JStr <$> layer flags) (fun layerName =>
               publish (arch flags) (output flags) regionName layerName))) (fun _ =>
  log [JStr "Done"]))))).

End Command.

End PublishCommand.

(** ** More sample runs

    A task root whose module fails to load, and a shell on which the
    publish command is run below. *)
Module Cases.

Import Sample.

(** The module is there but does not load. *)
Definition broken : Platform :=
  {| JSON_stringify := stringify;
     JSON_parse := parse;
     Bun_inspect := inspect;
     String_of := to_string;
     parseInt := parse_int;
     URL_href := fun url base => base +:+ url;
     import_ := fun _ => Throws (JError "SyntaxError" "Unexpected token" None);
     host := serve Runs.event1 202;
     call := fun _ _ _ => Pending |}.

(** The handler returns the string [done] after 10 milliseconds. *)
Definition greeting : Platform :=
  platform Runs.event1 202 (Settles 10 (Fulfilled (JStr "done"))).

(** What [aws ec2 describe-regions] prints on the sample shell. *)
Definition listing : string :=
  "[" +:+ quote "us-east-1" +:+ "," +:+ quote "eu-west-1" +:+ "]".

(** A platform that reads the listing, and [{}] for a published
    layer. *)
Definition reader : Platform :=
  {| JSON_stringify := stringify;
     JSON_parse := fun text =>
       if String.eqb text listing
       then Normal (JArr [JStr "us-east-1"; JStr "eu-west-1"])
       else parse text;
     Bun_inspect := inspect;
     String_of := to_string;
     parseInt := parse_int;
     URL_href := fun url base => base +:+ url;
     import_ := import_file;
     host := serve Runs.event1 202;
     call := fun _ _ _ => Pending |}.


Definition exited (code : Z) (stdout stderr : string) : PublishCommand.SpawnSyncReturns :=
  {| PublishCommand.sp_status := Some code; PublishCommand.sp_stdout := Some stdout; PublishCommand.sp_stderr := Some stderr |}.

(** The sample shell: when [aws] is installed it prints its version,
    lists two regions, has [eu-west-1] configured, and publishes
    anywhere but in the region [nowhere]; when it is not, no process
    starts. *)
Definition answer_of (installed : bool) (past : list PublishCommand.Action) (args : list JsValue)
    : PublishCommand.SpawnSyncReturns :=
  if negb installed
  then {| PublishCommand.sp_status := None; PublishCommand.sp_stdout := None; PublishCommand.sp_stderr := None |}
  else
    match args with
    | [JStr "--version"] => exited 0 "aws-cli/2.15.0" EmptyString
    | JStr "ec2" :: _ => exited 0 listing EmptyString
    | JStr "configure" :: _ => exited 0 "eu-west-1" EmptyString
    | JStr "lambda" :: _ :: _ :: _ :: _ :: JStr "nowhere" :: _ =>
        exited 254 EmptyString "Could not connect to the endpoint URL"
    | _ => exited 0 "{}" EmptyString
    end.

Definition shell (installed : bool) : PublishCommand.Shell :=
  {| PublishCommand.spawnSync := answer_of installed;
     PublishCommand.trim := fun text => text;
     PublishCommand.Error_stack := fun _ => None;
     PublishCommand.TypeError := fun _ => JError "TypeError" "null is not an object" None;
     PublishCommand.iterate := fun _ => None |}.

Definition flags_for (regions : list string) : PublishCommand.Flags :=
  {| PublishCommand.flags_object := JObj [("arch", JStr "x64")];
     PublishCommand.layer := ["bun-task"; "bun-task-next"];
     PublishCommand.region := regions;
     PublishCommand.arch := "x64";
     PublishCommand.output := "layer.zip" |}.

End Cases.

(** * Properties *)

(** ** Strings *)

Lemma string_prefix_app (t b : string) : String.prefix t (t +:+ b) = true.
Proof.
  induction t as [|c t IH]; simpl.
  - by destruct b.
  - destruct (ascii_dec c c) as [_|Hne]; [exact IH | by destruct Hne].
Qed.

Lemma includes_prefix (t s : string) : String.prefix t s = true -> includes t s = true.
Proof. intros H. destruct s; unfold includes; fold includes; by rewrite H. Qed.

Lemma includes_app (t a b : string) : includes t (a +:+ t +:+ b) = true.
Proof.
  induction a as [|c a IH].
  - change (includes t (t +:+ b) = true). apply includes_prefix, string_prefix_app.
  - change (includes t (String c (a +:+ t +:+ b)) = true).
    unfold includes; fold includes. rewrite IH. apply orb_true_r.
Qed.

Lemma string_app_assoc (a b c : string) : (a +:+ b) +:+ c = a +:+ b +:+ c.
Proof.
  induction a as [|d a IH]; [done|].
  change (String d ((a +:+ b) +:+ c) = String d (a +:+ b +:+ c)). by rewrite IH.
Qed.

Lemma string_prefix_inv (t s : string) :
  String.prefix t s = true -> exists rest, s = t +:+ rest.
Proof.
  revert s. induction t as [|c t IH]; intros s; [by exists s|].
  destruct s as [|d s]; simpl; [done|].
  destruct (ascii_dec c d) as [->|_]; [|done].
  intros Hprefix. destruct (IH s Hprefix) as (rest & ->). by exists rest.
Qed.

(** [includes t s] says that [s] is some text, then [t], then some
    text. *)
Lemma includes_inv (t s : string) :
  includes t s = true -> exists before rest, s = before +:+ t +:+ rest.
Proof.
  induction s as [|c s IH].
  - unfold includes. rewrite orb_false_r. intros Hprefix.
    destruct (string_prefix_inv _ _ Hprefix) as (rest & ->). by exists EmptyString, rest.
  - unfold includes; fold includes. intros Hincludes.
    apply orb_true_iff in Hincludes as [Hprefix|Hlater].
    + destruct (string_prefix_inv _ _ Hprefix) as (rest & ->). by exists EmptyString, rest.
    + destruct (IH Hlater) as (before & rest & ->). by exists (String c before), rest.
Qed.

Lemma includes_trans (a b c : string) :
  includes a b = true -> includes b c = true -> includes a c = true.
Proof.
  intros Hab Hbc.
  destruct (includes_inv _ _ Hab) as (before & rest & ->).
  destruct (includes_inv _ _ Hbc) as (before' & rest' & ->).
  rewrite !string_app_assoc, <- (string_app_assoc before' before).
  apply includes_app.
Qed.

Lemma split_cons (sep : ascii) (s : string) :
  exists piece pieces, split sep s = piece :: pieces.
Proof.
  destruct s as [|c rest]; simpl; [by eauto|].
  destruct (Ascii.eqb c sep); [by eauto|].
  destruct (split sep rest); eauto.
Qed.

Lemma join_cons (sep c : ascii) (piece : string) (pieces : list string) :
  join sep (String c piece :: pieces) = String c (join sep (piece :: pieces)).
Proof. by destruct pieces. Qed.

(** Joining the pieces of [s.split(sep)] with [sep] gives [s] back. *)
Lemma join_split (sep : ascii) (s : string) : join sep (split sep s) = s.
Proof.
  induction s as [|c rest IH]; simpl; [done|].
  destruct (Ascii.eqb_spec c sep) as [->|Hne].
  - destruct (split_cons sep rest) as (piece & pieces & E).
    rewrite E in IH |- *.
    change (String sep (join sep (piece :: pieces)) = String sep rest).
    by rewrite IH.
  - destruct (split_cons sep rest) as (piece & pieces & E).
    rewrite E in IH |- *. by rewrite join_cons, IH.
Qed.

(** No piece of [s.split(sep)] contains [sep]. *)
Lemma split_pieces (sep : ascii) (s : string) :
  Forall (fun piece => includes (String sep EmptyString) piece = false) (split sep s).
Proof.
  induction s as [|c rest IH]; simpl.
  - by repeat constructor.
  - destruct (Ascii.eqb_spec c sep) as [->|Hne].
    + constructor; [done | exact IH].
    + destruct (split sep rest) as [|piece pieces]; [by repeat constructor; simpl;
        destruct (ascii_dec sep c); [congruence|] |].
      inversion IH as [|? ? Hpiece Hrest]; subst. constructor; [|done].
      simpl. destruct (ascii_dec sep c); [congruence|]. simpl. exact Hpiece.
Qed.

(** ** The state of the process *)

Lemma bind_Return {A B} (m : M A) (k : A -> M B) (w w' : World) (a : A) :
  m w = Return a w' -> bind m k w = k a w'.
Proof. unfold bind. by intros ->. Qed.

Lemma bind_Exited {A B} (m : M A) (k : A -> M B) (w w' : World) (code : Z) :
  m w = Exited code w' -> bind m k w = Exited code w'.
Proof. unfold bind. by intros ->. Qed.

Lemma typeof_not_function (v : JsValue) :
  negb (String.eqb (js_typeof v) "function") = match v with JFun _ => false | _ => true end.
Proof. by destruct v. Qed.

Lemma env_present (name value : string) (fallback : option string) (w : World) :
  process_env w !! name = Some value -> env name fallback w = Return value w.
Proof. intros H. unfold env, bind, getenv. by rewrite H. Qed.

Lemma typeof_function (v : JsValue) :
  String.eqb (js_typeof v) "function" = true <-> exists fid, v = JFun fid.
Proof.
  split.
  - destruct v; simpl; try discriminate. eauto.
  - by intros [fid ->].
Qed.

(** What the [catch] block hands to [sendInvocationError] is always a
    serializable error: [formatError] is never given anything else. *)
Lemma serializable_isSerializableError (cause : JsValue) :
  isSerializableError (serializable cause) = true.
Proof.
  unfold serializable. destruct (isSerializableError cause) eqn:E; simpl; done.
Qed.

(** ** The environment resolver *)

(** C7. [env name fallback] returns the value of the environment
    variable when it is set, else the fallback when one is given, else
    it ends the process (status 1) after writing to the error console a
    message that names the missing variable.  The state of the process
    is otherwise unchanged. *)
Theorem env_resolution (name : string) (fallback : option string) (w : World) :
  let message := "Runtime failed to find the '" +:+ name +:+ "' environment variable" in
  env name fallback w =
    match process_env w !! name, fallback with
    | Some value, _ => Return value w
    | None, Some value => Return value w
    | None, None =>
        Exited 1 {| process_env := process_env w; clock := clock w;
                    trace := trace w ++ [EvConsoleError [JStr message]] |}
    end
  /\ includes name message = true.
Proof.
  split.
  - unfold env, bind, getenv.
    destruct (process_env w !! name); [done|]. by destruct fallback.
  - apply includes_app.
Qed.

(** ** The execution budget *)

(** C8. The budget computed for an invocation is
    [max 1 (deadline - now)] when the request carries a deadline and
    60000 milliseconds when it carries none, [now] being the reading of
    the clock at that point of the loop; computing it changes nothing. *)
Theorem durationMs_budget (w : World) :
  (forall deadline : Z,
      durationMs (Some deadline) w = Return (Z.max 1 (deadline - clock w)) w)
  /\ durationMs None w = Return 60000 w.
Proof.
  split.
  - intros deadline. reflexivity.
  - unfold durationMs, bind, Date_now, ret. f_equal. lia.
Qed.

(** ** The error formatter *)

(** [join] is the library's [String.concat]. *)
Lemma join_concat (sep : ascii) (pieces : list string) :
  join sep pieces = String.concat (String sep EmptyString) pieces.
Proof.
  induction pieces as [|piece rest IH]; [done|].
  destruct rest as [|next rest]; [done|].
  change (piece +:+ String sep (join sep (next :: rest))
          = piece +:+ String sep EmptyString
            +:+ String.concat (String sep EmptyString) (next :: rest)).
  by rewrite IH.
Qed.

(** A string in which the one-character string [c] does not occur has
    no character [c]. *)
Lemma includes_char_In (c : ascii) (s : string) :
  includes (String c EmptyString) s = false -> ~ In c (String.list_ascii_of_string s).
Proof.
  induction s as [|d rest IH]; [by intros _ []|].
  cbn [includes String.prefix String.list_ascii_of_string].
  destruct (ascii_dec c d) as [->|Hne].
  - by destruct rest.
  - rewrite orb_false_l. intros Hrest [Hhead|Htail]; [by destruct Hne | by apply IH].
Qed.

(** Own properties of an object: with distinct keys, a binding of the
    object is what [assoc] finds, and a key the object does not have is
    not found. *)
Lemma assoc_elem_of (key : string) (value : JsValue) (fields : list (string * JsValue)) :
  NoDup fields.*1 -> (key, value) ∈ fields -> assoc key fields = Some value.
Proof.
  induction fields as [|[k v] rest IH]; intros Hdistinct Hin.
  - by apply elem_of_nil in Hin.
  - apply NoDup_cons in Hdistinct as [Hfresh Hdistinct]. cbn [assoc].
    apply elem_of_cons in Hin as [[= <- <-]|Hin].
    + by rewrite String.eqb_refl.
    + destruct (String.eqb_spec k key) as [->|_]; [|by apply IH].
      destruct Hfresh. apply list_elem_of_fmap. by exists (key, value).
Qed.

Lemma assoc_absent (key : string) (fields : list (string * JsValue)) :
  key ∉ fields.*1 -> assoc key fields = None.
Proof.
  induction fields as [|[k v] rest IH]; intros Habsent; [done|]. cbn [assoc].
  destruct (String.eqb_spec k key) as [->|_].
  - destruct Habsent. by left.
  - apply IH. intros Hin. apply Habsent. by right.
Qed.

(** How a caught value is classified, read off the value itself. *)
Lemma classification (P : Platform) (v : JsValue) :
  (forall name message stack,
      v = JError name message stack ->
      formatError P (serializable v)
      = {| errorType := JStr name; errorMessage := message;
           stackTrace := split newline <$> stack |})
  /\ (forall fields kind cause,
        v = JObj fields -> NoDup fields.*1 ->
        ("type", kind) ∈ fields -> ("cause", cause) ∈ fields ->
        formatError P (serializable v)
        = {| errorType := kind; errorMessage := Bun_inspect P cause;
             stackTrace := None |})
  /\ ((forall name message stack, v <> JError name message stack) ->
      (forall fields, v = JObj fields -> "type" ∉ fields.*1 \/ "cause" ∉ fields.*1) ->
      formatError P (serializable v)
      = {| errorType := JStr "UnknownError"; errorMessage := Bun_inspect P v;
           stackTrace := None |}).
Proof.
  split; [by intros name message stack ->|]. split.
  - intros fields kind cause -> Hdistinct Hkind Hcause.
    pose proof (assoc_elem_of _ _ _ Hdistinct Hkind) as Htype.
    pose proof (assoc_elem_of _ _ _ Hdistinct Hcause) as Hcaused.
    unfold serializable, isSerializableError.
    cbn [instanceof_Error js_typeof is_null js_in orb negb].
    rewrite Htype, Hcaused. cbn [String.eqb Ascii.eqb Bool.eqb].
    cbn. by rewrite Htype, Hcaused.
  - intros Hnative Hshape. unfold serializable.
    assert (isSerializableError v = false) as ->; [|done].
    destruct v as [| | | | | |fields| |name message stack]; try done.
    + unfold isSerializableError. cbn [instanceof_Error js_typeof is_null js_in orb negb].
      destruct (Hshape fields eq_refl) as [Habsent|Habsent];
        rewrite (assoc_absent _ _ Habsent); cbn; [done|].
      by rewrite andb_false_r.
    + by destruct (Hnative name message stack).
Qed.

(** C4. A caught value [v] is formatted, after the wrapping done by the
    [catch] block, as follows.  A native failure gives its name, its
    message and, when it has a stack, the lines of the stack: strings
    without a line break which, joined by line breaks, are the stack
    (no stack, no lines).  Any other object that has a [type] and a
    [cause] gives its [type] and the rendering of its [cause] by
    [Bun.inspect], without stack lines.  Every other value (not a native
    failure and not an object that has both) gives ["UnknownError"] and
    the rendering of the value itself, without stack lines. *)
Theorem formatError_classifies (P : Platform) :
  (forall name message stack,
      let e := formatError P (serializable (JError name message stack)) in
      errorType e = JStr name
      /\ errorMessage e = message
      /\ match stack with
         | None => stackTrace e = None
         | Some text =>
             exists lines,
               stackTrace e = Some lines
               /\ String.concat (String (ascii_of_nat 10) EmptyString) lines = text
               /\ Forall (fun line => ~ In (ascii_of_nat 10) (String.list_ascii_of_string line))
                    lines
         end)
  /\ (forall fields kind cause,
        NoDup fields.*1 ->
        ("type", kind) ∈ fields -> ("cause", cause) ∈ fields ->
        formatError P (serializable (JObj fields))
        = {| errorType := kind; errorMessage := Bun_inspect P cause;
             stackTrace := None |})
  /\ (forall v,
        (forall name message stack, v <> JError name message stack) ->
        (forall fields, v = JObj fields -> "type" ∉ fields.*1 \/ "cause" ∉ fields.*1) ->
        formatError P (serializable v)
        = {| errorType := JStr "UnknownError"; errorMessage := Bun_inspect P v;
             stackTrace := None |}).
Proof.
  split; [|split].
  - intros name message stack e. split; [done|]. split; [done|].
    destruct stack as [text|]; [|done].
    exists (split newline text). split; [done|]. split.
    + rewrite <- join_concat. apply join_split.
    + eapply Forall_impl; [apply split_pieces|]. intros line. apply includes_char_In.
  - intros fields kind cause Hdistinct Hkind Hcause.
    by apply (proj1 (proj2 (classification P (JObj fields))) fields kind cause).
  - intros v Hnative Hshape. by apply (proj2 (proj2 (classification P v))).
Qed.

(** ** The trace only grows *)

Create HintDb grows.

Lemma grows_ret {A} (a : A) : grows (ret a).
Proof. intros w. done. Qed.

Lemma grows_bind {A B} (m : M A) (k : A -> M B) :
  grows m -> (forall a, grows (k a)) -> grows (bind m k).
Proof.
  intros Hm Hk w. unfold bind. specialize (Hm w).
  destruct (m w) as [a w'|code w']; simpl in *; [|done].
  etrans; [exact Hm | apply Hk].
Qed.

Lemma bind_prefix {A B} (m : M A) (k : A -> M B) (w : World) :
  (forall a, grows (k a)) ->
  trace (state_of (m w)) `prefix_of` trace (state_of (bind m k w)).
Proof.
  intros Hk. unfold bind. destruct (m w) as [a w'|code w']; simpl; [apply Hk | done].
Qed.

Lemma grows_emit (e : Event) : grows (emit e).
Proof. intros w. simpl. by apply prefix_app_r. Qed.

Lemma grows_sleep (ms : Z) : grows (sleep ms).
Proof. intros w. done. Qed.

Lemma grows_exit {A} (cause : list JsValue) : grows (@exit A cause).
Proof. intros w. simpl. by apply prefix_app_r. Qed.

Lemma grows_Date_now : grows Date_now.
Proof. intros w. done. Qed.

Lemma grows_getenv (name : string) : grows (getenv name).
Proof. intros w. done. Qed.

Lemma grows_setTraceId (traceId : string) : grows (setTraceId traceId).
Proof. intros w. done. Qed.

Lemma grows_resetTraceId : grows resetTraceId.
Proof. intros w. done. Qed.

#[local] Hint Resolve grows_ret grows_emit grows_sleep grows_exit grows_Date_now
  grows_getenv grows_setTraceId grows_resetTraceId : grows.

(** Splits a sequence of computations and closes the pieces with the
    lemmas collected so far. *)
Ltac grows :=
  repeat first
    [ progress auto with grows
    | match goal with
      | |- grows (bind _ _) => apply grows_bind; [|intros ?]
      | |- grows (let _ := _ in _) => cbv zeta
      | |- grows (match ?x with _ => _ end) => destruct x
      | |- grows (if ?b then _ else _) => destruct b
      end ].

Section Grows.

Context (P : Platform) (runtimeUrl : string).

Lemma grows_fetch href options : grows (fetch P href options).
Proof.
  intros w. unfold fetch. destruct (host P (trace w) href options). simpl.
  by apply prefix_app_r.
Qed.
Hint Resolve grows_fetch : grows.

Lemma grows_invoke lambda payload : grows (invoke P lambda payload).
Proof.
  intros w. unfold invoke. destruct lambda; simpl; try done.
  by apply prefix_app_r.
Qed.
Hint Resolve grows_invoke : grows.

Lemma grows_env name fallback : grows (env name fallback).
Proof. unfold env. grows. Qed.

Lemma grows_durationMs deadline : grows (durationMs deadline).
Proof. unfold durationMs. grows. Qed.
Hint Resolve grows_env grows_durationMs : grows.

Lemma grows_lambdaFetch url options : grows (lambdaFetch P runtimeUrl url options).
Proof. unfold lambdaFetch. grows. Qed.
Hint Resolve grows_lambdaFetch : grows.

Lemma grows_sendBaseError url error : grows (sendBaseError P runtimeUrl url error).
Proof. unfold sendBaseError. grows. Qed.
Hint Resolve grows_sendBaseError : grows.

Lemma grows_receiveRequest : grows (receiveRequest P runtimeUrl).
Proof. unfold receiveRequest, fetchNextInvocation. grows. Qed.
Hint Resolve grows_receiveRequest : grows.

Lemma grows_report request duration awaited :
  grows (report P runtimeUrl request duration awaited).
Proof.
  unfold report, sendInvocationError, sendInvocationResponse. grows.
Qed.
Hint Resolve grows_report : grows.

Lemma grows_iteration lambda : grows (iteration P runtimeUrl lambda).
Proof. unfold iteration. grows. Qed.
Hint Resolve grows_iteration : grows.

Lemma grows_loop turns lambda : grows (loop P runtimeUrl turns lambda).
Proof. induction turns as [|n IH]; simpl; grows. Qed.
Hint Resolve grows_loop : grows.

(** A turn of the loop starts with the poll: whatever follows, the
    trace goes on with the request for the next invocation. *)
Lemma loop_polls_first turns lambda w delay response :
  let poll := URL_href P "invocation/next" runtimeUrl in
  host P (trace w) poll None = (delay, response) ->
  trace w ++ [EvFetch poll None response]
    `prefix_of` trace (state_of (loop P runtimeUrl (S turns) lambda w)).
Proof.
  intros poll Hhost.
  assert (trace (state_of (fetch P poll None w)) = trace w ++ [EvFetch poll None response])
    as <-.
  { unfold fetch. by rewrite Hhost. }
  cbn [loop]. etrans; [|apply bind_prefix; intros; grows].
  unfold iteration. etrans; [|apply bind_prefix; intros; grows].
  unfold receiveRequest. etrans; [|apply bind_prefix; intros; grows].
  unfold fetchNextInvocation, lambdaFetch. cbv zeta. apply bind_prefix; intros; grows.
Qed.

End Grows.

(** ** The runtime API client and the protocol *)

Lemma lambdaFetch_run (P : Platform) (runtimeUrl url : string)
    (options : option RequestInit) (w : World) (delay : Z) (response : Response) :
  let href := URL_href P url runtimeUrl in
  host P (trace w) href options = (delay, response) ->
  lambdaFetch P runtimeUrl url options w =
    if ok response
    then Return response (answered w href options delay response)
    else Exited 1 (refused P w href options delay response).
Proof.
  intros href Hhost. unfold lambdaFetch, bind, fetch. fold href. rewrite Hhost.
  destruct (ok response); simpl; [done|].
  unfold exit, refused. simpl. by rewrite <- app_assoc.
Qed.

(** C1. A poll response that is not a success, or lacks the request id
    header, or lacks the trace id header, or whose body is not valid
    JSON ends the process (status 1) in the turn that received it: the
    poll is the last request the process makes, so no error report is
    sent.  Every request made through [lambdaFetch] ends the process
    when the answer is not a success, and the four wire operations are
    all made through it. *)
Theorem protocol_failures_are_fatal (P : Platform) (runtimeUrl : string) :
  (forall (w : World) (delay : Z) (response : Response) (lambda : JsValue) (turns : nat),
      let href := URL_href P "invocation/next" runtimeUrl in
      host P (trace w) href None = (delay, response) ->
      ok response = false
      \/ headers_get response "Lambda-Runtime-Aws-Request-Id" = None
      \/ headers_get response "Lambda-Runtime-Trace-Id" = None
      \/ (exists cause, JSON_parse P (text response) = Throws cause) ->
      exists said,
        loop P runtimeUrl (S turns) lambda w =
          Exited 1 {| process_env := process_env w;
                      clock := clock w + delay;
                      trace := trace w ++ [EvFetch href None response;
                                           EvConsoleError said] |})
  /\ (forall (w : World) (url : string) (options : option RequestInit)
             (delay : Z) (response : Response),
        let href := URL_href P url runtimeUrl in
        host P (trace w) href options = (delay, response) ->
        ok response = false ->
        lambdaFetch P runtimeUrl url options w =
          Exited 1 (refused P w href options delay response))
  /\ fetchNextInvocation P runtimeUrl = lambdaFetch P runtimeUrl "invocation/next" None
  /\ (forall requestId body,
        sendInvocationResponse P runtimeUrl requestId body =
          lambdaFetch P runtimeUrl ("invocation/" +:+ requestId +:+ "/response")
            (Some (response_options body)))
  /\ (forall requestId error,
        sendInvocationError P runtimeUrl requestId error =
          lambdaFetch P runtimeUrl ("invocation/" +:+ requestId +:+ "/error")
            (Some (error_options P (formatError P error))))
  /\ (forall error,
        sendInitError P runtimeUrl error =
          lambdaFetch P runtimeUrl "init/error"
            (Some (error_options P (formatError P error)))).
Proof.
  split; [|split; [|by repeat split]].
  - intros w delay response lambda turns href Hhost Hbad.
    cbn [loop]. unfold iteration.
    assert (forall (k : LambdaRequest -> M unit) (K : unit -> M unit),
               exists said,
                 bind (bind (receiveRequest P runtimeUrl) k) K w =
                   Exited 1 {| process_env := process_env w;
                               clock := clock w + delay;
                               trace := trace w ++ [EvFetch href None response;
                                                    EvConsoleError said] |}) as Hrecv.
    { intros k K. unfold receiveRequest, fetchNextInvocation.
      unfold bind at 1 2 3.
      rewrite (lambdaFetch_run P runtimeUrl _ None w delay response Hhost). fold href.
      destruct (ok response) eqn:Hok.
      - destruct (headers_get response "Lambda-Runtime-Aws-Request-Id") as [id|] eqn:Hid;
          [|eexists; unfold exit, answered; simpl; by rewrite <- app_assoc].
        destruct (headers_get response "Lambda-Runtime-Trace-Id") as [tid|] eqn:Htid;
          [|eexists; unfold exit, answered; simpl; by rewrite <- app_assoc].
        destruct (JSON_parse P (text response)) as [payload|cause] eqn:Hparse;
          [|eexists; unfold exit, answered; simpl; by rewrite <- app_assoc].
        destruct Hbad as [?|[?|[?|[cause ?]]]]; congruence.
      - eexists. unfold refused. reflexivity. }
    apply Hrecv.
  - intros w url options delay response href Hhost Hok.
    rewrite (lambdaFetch_run P runtimeUrl url options w delay response Hhost).
    by rewrite Hok.
Qed.

(** ** One invocation *)

Section Invocation.

Context (P : Platform) (runtimeUrl : string).

(** The process polls in state [w]; the host answers a well-formed
    invocation after [delay] milliseconds, and the handler is the
    function [fid]. *)
Variables (w : World) (delay : Z) (response : Response).
Variables (id tid : string) (payload : JsValue) (fid : nat).

Local Abbreviation poll := (URL_href P "invocation/next" runtimeUrl).
Local Abbreviation received := (answered w poll None delay response).
Local Abbreviation budget := (budget_of (deadline_of P response) (clock w + delay)).
Local Abbreviation request :=
  {| requestId := id; traceId := tid;
     deadlineMs := deadline_of P response; event := payload |}.
Local Abbreviation error_href := (URL_href P ("invocation/" +:+ id +:+ "/error") runtimeUrl).
Local Abbreviation response_href :=
  (URL_href P ("invocation/" +:+ id +:+ "/response") runtimeUrl).

Hypothesis polled : host P (trace w) poll None = (delay, response).
Hypothesis poll_ok : ok response = true.
Hypothesis has_request_id :
  headers_get response "Lambda-Runtime-Aws-Request-Id" = Some id.
Hypothesis has_trace_id :
  headers_get response "Lambda-Runtime-Trace-Id" = Some tid.
Hypothesis parses : JSON_parse P (text response) = Normal payload.

Lemma receiveRequest_run :
  receiveRequest P runtimeUrl w = Return request received.
Proof using polled poll_ok has_request_id has_trace_id parses.
  unfold receiveRequest, fetchNextInvocation, bind.
  rewrite (lambdaFetch_run P runtimeUrl _ None w delay response polled), poll_ok.
  by rewrite has_request_id, has_trace_id, parses.
Qed.

(** A poll response without the deadline header carries no deadline
    (the code reads the header as ["0"], which [parseInt] turns into
    0, which [||] turns into [null]). *)
Lemma deadline_of_absent :
  parseInt P "0" = Some 0 ->
  headers_get response "Lambda-Runtime-Deadline-Ms" = None ->
  deadline_of P response = None.
Proof. intros Hzero Habsent. unfold deadline_of. by rewrite Habsent; simpl; rewrite Hzero. Qed.

(** Up to the end of the race a turn of the loop is determined by the
    poll response and by what the handler does. *)
Lemma iteration_run :
  iteration P runtimeUrl (JFun fid) w =
    let raced := Promise_race (call P fid (at_call received tid) payload) budget in
    report P runtimeUrl request budget raced.2
      (after_race received tid fid payload raced.1).
Proof using polled poll_ok has_request_id has_trace_id parses.
  unfold iteration. rewrite (bind_Return _ _ _ _ _ receiveRequest_run).
  cbn [deadlineMs traceId event requestId].
  assert (durationMs (deadline_of P response) received = Return budget received)
    as Hbudget.
  { unfold budget_of. destruct (deadline_of P response); reflexivity. }
  rewrite (bind_Return _ _ _ _ _ Hbudget).
  unfold bind at 1. unfold setTraceId.
  unfold bind at 1. unfold invoke. cbn [process_env clock trace].
  rewrite lookup_insert_eq.
  change {| process_env := <["_X_AMZN_TRACE_ID" := tid]> (process_env received);
            clock := clock received; trace := trace received |}
    with (at_call received tid).
  destruct (Promise_race (call P fid (at_call received tid) payload) budget)
    as [elapsed awaited].
  unfold bind at 1. reflexivity.
Qed.

Lemma sendInvocationError_run (error : JsValue) (now : World)
    (delay' : Z) (response' : Response) :
  host P (trace now) error_href (Some (error_options P (formatError P error)))
    = (delay', response') ->
  ok response' = true ->
  sendInvocationError P runtimeUrl id error now =
    Return response'
      (answered now error_href (Some (error_options P (formatError P error)))
         delay' response').
Proof.
  intros Hhost Hok. unfold sendInvocationError, sendBaseError. cbv zeta.
  by rewrite (lambdaFetch_run P runtimeUrl _ _ now delay' response' Hhost), Hok.
Qed.

(** When a turn ends and the loop goes on, its next action is the
    next poll. *)
Lemma next_turn_polls (w' : World) (turns : nat) :
  iteration P runtimeUrl (JFun fid) w = Return tt w' ->
  loop P runtimeUrl (S turns) (JFun fid) w = loop P runtimeUrl turns (JFun fid) w'
  /\ forall delay' response',
      host P (trace w') poll None = (delay', response') ->
      trace w' ++ [EvFetch poll None response']
        `prefix_of` trace (state_of (loop P runtimeUrl (S turns) (JFun fid) w')).
Proof.
  intros Hturn. split.
  - cbn [loop]. by rewrite (bind_Return _ _ _ _ _ Hturn).
  - intros delay' response'. apply loop_polls_first.
Qed.

Lemma sendInvocationResponse_run (body : option string) (now : World)
    (delay' : Z) (response' : Response) :
  host P (trace now) response_href (Some (response_options body)) = (delay', response') ->
  sendInvocationResponse P runtimeUrl id body now =
    if ok response'
    then Return response'
           (answered now response_href (Some (response_options body)) delay' response')
    else Exited 1 (refused P now response_href (Some (response_options body))
                     delay' response').
Proof.
  intros Hhost. unfold sendInvocationResponse.
  by rewrite (lambdaFetch_run P runtimeUrl _ _ now delay' response' Hhost).
Qed.

Lemma trace_after_race (elapsed : Z) :
  trace (after_race received tid fid payload elapsed)
  = trace w ++ [EvFetch poll None response; EvCall fid payload (Some tid)].
Proof. simpl. by rewrite <- app_assoc. Qed.

Lemma trace_reported (elapsed : Z) href options delay' response' :
  trace (reported (after_race received tid fid payload elapsed) href options delay' response')
  = trace w ++ [EvFetch poll None response; EvCall fid payload (Some tid);
                EvFetch href (Some options) response'].
Proof. simpl. by rewrite <- !app_assoc. Qed.

(** C2. When the handler's promise is rejected with [cause] before
    the timer fires and the host accepts the report, the turn sends
    one request after the poll: a [POST] to the error address of the
    request id of the poll, whose body is the JSON text of the
    envelope [formatError] makes of [cause] (after the wrapping of the
    [catch] block) and whose error-type header is the envelope's type.
    The envelope is the one the value calls for: name and message of a
    native failure, [type] and rendered [cause] of an object that has
    both, ["UnknownError"] and the rendered value otherwise.  The turn
    then ends without ending the process, the trace id is no longer in
    the environment, and the loop goes on with the next poll. *)
Theorem handler_failure_is_reported (cause : JsValue) (after delay' : Z)
    (response' : Response) (turns : nat) :
  let envelope := formatError P (serializable cause) in
  let options :=
    {| method := "POST";
       body := JSON_stringify P
                 (JObj ([("errorType", errorType envelope);
                         ("errorMessage", JStr (errorMessage envelope))]
                        ++ match stackTrace envelope with
                           | Some lines => [("stackTrace", JArr (JStr <$> lines))]
                           | None => []
                           end));
       headers := [("Lambda-Runtime-Function-Error-Type", errorType envelope);
                   ("Content-Type", JStr "application/vnd.aws.lambda.error+json")] |} in
  let raced := after_race received tid fid payload after in
  let w' := reported raced error_href options delay' response' in
  call P fid (at_call received tid) payload = Settles after (Rejected cause) ->
  after < budget ->
  host P (trace raced) error_href (Some options) = (delay', response') ->
  ok response' = true ->
  iteration P runtimeUrl (JFun fid) w = Return tt w'
  /\ trace w' = trace w ++ [EvFetch poll None response;
                            EvCall fid payload (Some tid);
                            EvFetch error_href (Some options) response']
  /\ process_env w' !! "_X_AMZN_TRACE_ID" = None
  /\ loop P runtimeUrl (S turns) (JFun fid) w = loop P runtimeUrl turns (JFun fid) w'
  /\ (forall delay'' response'',
        host P (trace w') poll None = (delay'', response'') ->
        trace w' ++ [EvFetch poll None response'']
          `prefix_of` trace (state_of (loop P runtimeUrl (S turns) (JFun fid) w')))
  /\ w' = {| process_env := delete "_X_AMZN_TRACE_ID"
                              (<["_X_AMZN_TRACE_ID" := tid]> (process_env w));
             clock := clock w + delay + after + delay';
             trace := trace w ++ [EvFetch poll None response;
                                  EvCall fid payload (Some tid);
                                  EvFetch error_href (Some options) response'] |}
  /\ (forall name message stack,
        cause = JError name message stack ->
        errorType envelope = JStr name /\ errorMessage envelope = message)
  /\ (forall fields kind reason,
        cause = JObj fields -> NoDup fields.*1 ->
        ("type", kind) ∈ fields -> ("cause", reason) ∈ fields ->
        envelope = {| errorType := kind; errorMessage := Bun_inspect P reason;
                      stackTrace := None |})
  /\ ((forall name message stack, cause <> JError name message stack) ->
      (forall fields, cause = JObj fields -> "type" ∉ fields.*1 \/ "cause" ∉ fields.*1) ->
      envelope = {| errorType := JStr "UnknownError"; errorMessage := Bun_inspect P cause;
                    stackTrace := None |}).
Proof using polled poll_ok has_request_id has_trace_id parses.
  intros envelope options raced w' Hcall Hfirst Hhost Hok.
  assert (iteration P runtimeUrl (JFun fid) w = Return tt w') as Hturn.
  { rewrite iteration_run, Hcall. unfold Promise_race.
    destruct (Z.ltb_spec after budget) as [_|]; [|lia].
    cbn [fst snd report requestId]. fold raced.
    by rewrite (bind_Return _ _ _ _ _
                  (sendInvocationError_run (serializable cause) raced delay' response'
                     Hhost Hok)). }
  destruct (classification P cause) as (Hnative & Hshape & Hother).
  split; [exact Hturn|]. split; [apply trace_reported|].
  split; [apply lookup_delete_eq|].
  split; [by apply (proj1 (next_turn_polls w' turns Hturn))|].
  split; [by apply (proj2 (next_turn_polls w' turns Hturn))|].
  split.
  { subst w'. unfold reported, raced, after_race.
    cbn [process_env clock trace answered]. f_equal. by rewrite <- !app_assoc. }
  split.
  { intros name message stack Hcause. subst envelope.
    by rewrite (Hnative name message stack Hcause). }
  split; [exact Hshape | exact Hother].
Qed.

(** C9. When the timer fires before the handler's promise settles
    (it settles later than the budget, or never) and the host
    accepts the report, the turn sends one request after the poll: a
    [POST] to the error address of the request id of the poll, whose
    body is the JSON text of an envelope of type ["TimeoutError"] with,
    as message, the rendering by [Bun.inspect] of
    ["Function timed out after <budget>ms"], and whose error-type header
    is ["TimeoutError"]; where [Bun.inspect] shows a string in its
    rendering, the message sent includes the budget.  The turn ends
    exactly [budget] milliseconds after the call plus the time of the
    report, whatever the handler does later, and the process goes on
    with the next poll.  The handler is left alone: it was called with
    the event and nothing else; from that call to the end of the turn
    the runtime only waits for the timer, clears the trace id and sends
    the report, so that the state at the end of the turn is the state
    at the call with these changes; the report goes out while the
    handler's promise is still unsettled, and nothing settles or drops
    it. *)
Theorem timeout_is_reported (delay' : Z) (response' : Response) (turns : nat) :
  let message := "Function timed out after " +:+ String_of P (JNum budget) +:+ "ms" in
  let rendered := Bun_inspect P (JStr message) in
  let options :=
    {| method := "POST";
       body := JSON_stringify P
                 (JObj [("errorType", JStr "TimeoutError");
                        ("errorMessage", JStr rendered)]);
       headers := [("Lambda-Runtime-Function-Error-Type", JStr "TimeoutError");
                   ("Content-Type", JStr "application/vnd.aws.lambda.error+json")] |} in
  let raced := after_race received tid fid payload budget in
  let w' := reported raced error_href options delay' response' in
  call P fid (at_call received tid) payload = Pending
  \/ (exists after how,
        call P fid (at_call received tid) payload = Settles after how /\ budget < after) ->
  host P (trace raced) error_href (Some options) = (delay', response') ->
  ok response' = true ->
  iteration P runtimeUrl (JFun fid) w = Return tt w'
  /\ includes (String_of P (JNum budget)) message = true
  /\ trace w' = trace w ++ [EvFetch poll None response;
                            EvCall fid payload (Some tid);
                            EvFetch error_href (Some options) response']
  /\ clock w' = clock w + delay + budget + delay'
  /\ process_env w' !! "_X_AMZN_TRACE_ID" = None
  /\ loop P runtimeUrl (S turns) (JFun fid) w = loop P runtimeUrl turns (JFun fid) w'
  /\ (forall delay'' response'',
        host P (trace w') poll None = (delay'', response'') ->
        trace w' ++ [EvFetch poll None response'']
          `prefix_of` trace (state_of (loop P runtimeUrl (S turns) (JFun fid) w')))
  /\ ((forall text, includes text (Bun_inspect P (JStr text)) = true) ->
      includes (String_of P (JNum budget)) rendered = true)
  /\ w' = {| process_env := delete "_X_AMZN_TRACE_ID" (process_env (at_call received tid));
             clock := clock (at_call received tid) + budget + delay';
             trace := trace (at_call received tid)
                      ++ [EvCall fid payload (Some tid);
                          EvFetch error_href (Some options) response'] |}
  /\ (forall after how,
        call P fid (at_call received tid) payload = Settles after how ->
        clock w' - delay' < clock (at_call received tid) + after).
Proof using polled poll_ok has_request_id has_trace_id parses.
  intros message rendered options raced w' Hcall Hhost Hok.
  assert (Promise_race (call P fid (at_call received tid) payload) budget
          = (budget, Value {| data := JNull; timeout := true |})) as Hrace.
  { destruct Hcall as [->|(after & how & -> & Hlate)]; [done|].
    unfold Promise_race. destruct (Z.ltb_spec after budget); [lia | done]. }
  assert (iteration P runtimeUrl (JFun fid) w = Return tt w') as Hturn.
  { rewrite iteration_run, Hrace. cbn [fst snd report requestId timeout].
    fold raced. unfold bind at 1. unfold resetTraceId. fold (cleared raced).
    pose proof (sendInvocationError_run
                  (JObj [("type", JStr "TimeoutError"); ("cause", JStr message)])
                  (cleared raced) delay' response' Hhost Hok) as Hsent.
    by rewrite (bind_Return _ _ _ _ _ Hsent). }
  split; [exact Hturn|]. split; [apply includes_app|].
  split; [apply trace_reported|]. split; [done|].
  split; [apply lookup_delete_eq|].
  split; [by apply (proj1 (next_turn_polls w' turns Hturn))|].
  split; [by apply (proj2 (next_turn_polls w' turns Hturn))|].
  split.
  { intros Hshows. eapply includes_trans; [|apply Hshows]. apply includes_app. }
  split.
  { subst w'. unfold reported, raced, after_race, at_call.
    cbn [process_env clock trace answered]. f_equal. by rewrite <- !app_assoc. }
  intros after how Hsettles.
  destruct Hcall as [Hpending|(after' & how' & Hlater & Hlate)]; [congruence|].
  rewrite Hsettles in Hlater. injection Hlater as <- <-.
  subst w'. unfold reported, raced, after_race, at_call.
  cbn [process_env clock trace answered]. lia.
Qed.

(** C3. When the handler's promise is fulfilled with [X] before the
    timer fires, the turn calls [sendInvocationResponse] for the
    request id of the poll with this body: none when [X] is [null],
    [X] itself when [X] is a string, and [JSON.stringify(X)]
    otherwise.  The request that carries it is the one request made
    after the poll, and the turn ends normally when the host accepts
    it. *)
Theorem handler_result_body (X : JsValue) (after delay' : Z) (response' : Response) :
  let body := match X with
              | JNull => None
              | JStr s => Some s
              | other => JSON_stringify P other
              end in
  let raced := after_race received tid fid payload after in
  call P fid (at_call received tid) payload = Settles after (Fulfilled X) ->
  after < budget ->
  host P (trace raced) response_href (Some (response_options body)) = (delay', response') ->
  iteration P runtimeUrl (JFun fid) w
    = bind (sendInvocationResponse P runtimeUrl id body) (fun _ => ret tt) (cleared raced)
  /\ (X = JNull -> body = None)
  /\ (forall s, X = JStr s -> body = Some s)
  /\ (X <> JNull -> (forall s, X <> JStr s) -> body = JSON_stringify P X)
  /\ trace w ++ [EvFetch poll None response;
                 EvCall fid payload (Some tid);
                 EvFetch response_href (Some (response_options body)) response']
       `prefix_of` trace (state_of (iteration P runtimeUrl (JFun fid) w))
  /\ (ok response' = true ->
      iteration P runtimeUrl (JFun fid) w
        = Return tt (reported raced response_href (response_options body) delay' response')).
Proof using polled poll_ok has_request_id has_trace_id parses.
  intros body raced Hcall Hfirst Hhost.
  assert (iteration P runtimeUrl (JFun fid) w
          = bind (sendInvocationResponse P runtimeUrl id body) (fun _ => ret tt)
              (cleared raced)) as Hturn.
  { rewrite iteration_run, Hcall. unfold Promise_race.
    destruct (Z.ltb_spec after budget) as [_|]; [|lia].
    cbn [fst snd report requestId timeout data]. fold raced.
    unfold bind at 1. unfold resetTraceId. fold (cleared raced).
    clear Hcall Hhost. subst body. by destruct X. }
  split; [exact Hturn|].
  split; [by intros ->|]. split; [by intros s ->|].
  split.
  { intros Hnull Hstr. destruct X as [| | | |s| | | |]; try done. by destruct (Hstr s). }
  rewrite Hturn. unfold bind.
  rewrite (sendInvocationResponse_run body (cleared raced) delay' response' Hhost).
  split.
  - destruct (ok response'); simpl; rewrite <- !app_assoc; simpl.
    + done.
    + eexists [_]. by rewrite <- app_assoc.
  - by intros ->.
Qed.

(** C10. The handler is called with the trace id of the invocation
    in the environment slot, and whatever the handler does (it
    returns, it throws, or the timer fires first), once the host has
    accepted the report the turn ends with the slot cleared: the slot
    is empty when the next poll is made. *)
Theorem trace_id_is_set_then_cleared :
  (forall href options,
      ok (host P (trace w ++ [EvFetch poll None response; EvCall fid payload (Some tid)])
            href options).2 = true) ->
  process_env (at_call received tid) !! "_X_AMZN_TRACE_ID" = Some tid
  /\ exists w' sent,
      iteration P runtimeUrl (JFun fid) w = Return tt w'
      /\ trace w' = trace w ++ [EvFetch poll None response;
                                EvCall fid payload (Some tid);
                                sent]
      /\ process_env w' !! "_X_AMZN_TRACE_ID" = None.
Proof using polled poll_ok has_request_id has_trace_id parses.
  intros Haccepts. split; [apply lookup_insert_eq|].
  rewrite iteration_run.
  destruct (Promise_race (call P fid (at_call received tid) payload) budget)
    as [elapsed [[result late]|cause]]; cbn [fst snd report requestId timeout data].
  - unfold bind at 1. unfold resetTraceId.
    fold (cleared (after_race received tid fid payload elapsed)).
    destruct late.
    + match goal with
      | |- context [sendInvocationError P runtimeUrl id ?e] => set (error := e)
      end.
      destruct (host P (trace (cleared (after_race received tid fid payload elapsed)))
                  error_href (Some (error_options P (formatError P error))))
        as [delay' response'] eqn:Hhost.
      pose proof (Haccepts error_href (Some (error_options P (formatError P error))))
        as Hok.
      rewrite <- trace_after_race with (elapsed := elapsed) in Hok.
      change (trace (after_race received tid fid payload elapsed))
        with (trace (cleared (after_race received tid fid payload elapsed))) in Hok.
      rewrite Hhost in Hok.
      rewrite (bind_Return _ _ _ _ _ (sendInvocationError_run error _ _ _ Hhost Hok)).
      eexists _, _. split; [reflexivity|]. split; [|apply lookup_delete_eq].
      simpl. by rewrite <- !app_assoc.
    + match goal with
      | |- context [sendInvocationResponse P runtimeUrl id ?b] => set (body := b)
      end.
      destruct (host P (trace (cleared (after_race received tid fid payload elapsed)))
                  response_href (Some (response_options body)))
        as [delay' response'] eqn:Hhost.
      pose proof (Haccepts response_href (Some (response_options body))) as Hok.
      rewrite <- trace_after_race with (elapsed := elapsed) in Hok.
      change (trace (after_race received tid fid payload elapsed))
        with (trace (cleared (after_race received tid fid payload elapsed))) in Hok.
      rewrite Hhost in Hok. simpl in Hok.
      unfold bind. rewrite (sendInvocationResponse_run body _ _ _ Hhost), Hok.
      eexists _, _. split; [reflexivity|]. split; [|apply lookup_delete_eq].
      simpl. by rewrite <- !app_assoc.
  - destruct (host P (trace (after_race received tid fid payload elapsed))
                error_href (Some (error_options P (formatError P (serializable cause)))))
      as [delay' response'] eqn:Hhost.
    pose proof (Haccepts error_href
                  (Some (error_options P (formatError P (serializable cause))))) as Hok.
    rewrite <- trace_after_race with (elapsed := elapsed) in Hok.
    rewrite Hhost in Hok.
    rewrite (bind_Return _ _ _ _ _ (sendInvocationError_run _ _ _ _ Hhost Hok)).
    eexists _, _. split; [reflexivity|]. split; [|apply lookup_delete_eq].
    simpl. by rewrite <- !app_assoc.
Qed.

End Invocation.

(** ** Cold start *)

Section ColdStart.

Context (P : Platform) (runtimeUrl : string).

Lemma throwError_init {A} (error : JsValue) (w : World) :
  @throwError P runtimeUrl A error None w = Exited 1 (init_failure P runtimeUrl error w).
Proof.
  unfold throwError, sendInitError, sendBaseError. cbv zeta.
  unfold bind at 1. unfold emit.
  set (said := {| process_env := process_env w; clock := clock w;
                  trace := trace w ++ [EvConsoleError [error]] |}).
  destruct (host P (trace said) (URL_href P "init/error" runtimeUrl)
              (Some (error_options P (formatError P error))))
    as [delay response] eqn:Hhost.
  unfold bind.
  rewrite (lambdaFetch_run P runtimeUrl _ _ said delay response Hhost).
  unfold init_failure. cbv zeta. change (trace w ++ [EvConsoleError [error]])
    with (trace said).
  rewrite Hhost. cbn [fst snd].
  destruct (ok response); unfold exit, refused, answered; simpl;
    by rewrite <- !app_assoc.
Qed.

(** The process starts in state [w] with the handler identifier and
    the task root in its environment. *)
Variables (w : World) (handlerName root : string).

Hypothesis handler_set : process_env w !! "_HANDLER" = Some handlerName.
Hypothesis root_set : process_env w !! "LAMBDA_TASK_ROOT" = Some root.

Local Abbreviation index := (lastIndexOf "."%char handlerName).
Local Abbreviation fileName := (substring 0 index handlerName).
Local Abbreviation moduleName := (substring_from (index + 1) handlerName).
Local Abbreviation filePath := (root +:+ "/" +:+ fileName).

(** C5. Once the module is loaded, [init] resolves the handler to the
    [default] export unless that one is [undefined] or [null], and
    then to the export named by the identifier.  A function is
    returned as the handler; when the resolved value is [undefined]
    the process reports an initialization error of type
    ["MethodDoesNotExist"] and exits; when it is anything else the
    process reports one of type ["MethodIsNotAFunction"] and exits. *)
Theorem handler_resolution (file : JsValue) :
  let resolved := match js_get "default" file with
                  | JUndefined | JNull => js_get moduleName file
                  | preferred => preferred
                  end in
  let failure kind :=
    JObj [("type", JStr kind);
          ("cause", JStr (fileName +:+ " does not an function export '"
                          +:+ moduleName +:+ "' (handler is "
                          +:+ String_of P resolved +:+ ")"))] in
  import_ P filePath = Normal file ->
  init P runtimeUrl w =
    match resolved with
    | JFun _ => Return resolved (importing w filePath)
    | JUndefined =>
        Exited 1 (init_failure P runtimeUrl (failure "MethodDoesNotExist")
                    (importing w filePath))
    | _ =>
        Exited 1 (init_failure P runtimeUrl (failure "MethodIsNotAFunction")
                    (importing w filePath))
    end
  /\ forall kind, errorType (formatError P (failure kind)) = JStr kind.
Proof using handler_set root_set.
  intros resolved failure Himport. split; [|done].
  unfold init.
  rewrite (bind_Return _ _ _ _ _ (env_present _ _ None w handler_set)). cbv zeta.
  rewrite (bind_Return _ _ _ _ _ (env_present _ _ None w root_set)).
  unfold bind at 1. unfold emit. rewrite Himport.
  assert (nullish (js_get "default" file) (js_get moduleName file) = resolved) as ->.
  { subst resolved. unfold nullish. by destruct (js_get "default" file). }
  fold (importing w filePath).
  rewrite typeof_not_function.
  destruct resolved eqn:Hresolved; cbn [is_undefined];
    try (rewrite throwError_init; reflexivity).
  reflexivity.
Qed.

End ColdStart.

Section MissingModule.

Context (P : Platform).

(** The process starts in state [w] with the three variables it needs
    in its environment. *)
Variables (w : World) (api handlerName root : string).

Hypothesis api_set : process_env w !! "AWS_LAMBDA_RUNTIME_API" = Some api.
Hypothesis handler_set : process_env w !! "_HANDLER" = Some handlerName.
Hypothesis root_set : process_env w !! "LAMBDA_TASK_ROOT" = Some root.

Local Abbreviation runtimeUrl := ("http://" +:+ api +:+ "/2018-06-01/runtime/").
Local Abbreviation fileName :=
  (substring 0 (lastIndexOf "."%char handlerName) handlerName).
Local Abbreviation filePath := (root +:+ "/" +:+ fileName).

(** C6 (amended). When the import of the handler's module throws a
    native failure whose message starts with ["Cannot find module"],
    the process sends one request, an initialization error of type
    ["FileDoesNotExist"] whose message is the rendering of
    ["Did not find a file named '<module>'"], [<module>] being the
    part of the handler identifier before its last dot; it then exits
    with status 1, however many turns the loop was meant to run, and
    never polls. *)
Theorem missing_module_is_reported (name message : string) (stack : option string)
    (turns : nat) :
  let cause := "Did not find a file named '" +:+ fileName +:+ "'" in
  let error := JObj [("type", JStr "FileDoesNotExist"); ("cause", JStr cause)] in
  let envelope := {| errorType := JStr "FileDoesNotExist";
                     errorMessage := Bun_inspect P (JStr cause);
                     stackTrace := None |} in
  import_ P filePath = Throws (JError name message stack) ->
  startsWith "Cannot find module" message = true ->
  main P turns w = Exited 1 (init_failure P runtimeUrl error (importing w filePath))
  /\ formatError P error = envelope
  /\ includes fileName cause = true
  /\ exists response said,
      trace (init_failure P runtimeUrl error (importing w filePath))
      = trace w ++ [EvImport filePath;
                    EvConsoleError [error];
                    EvFetch (URL_href P "init/error" runtimeUrl)
                      (Some (error_options P envelope)) response;
                    EvConsoleError said].
Proof using api_set handler_set root_set.
  intros cause error envelope Himport Hmessage.
  split; [|split; [done|split; [apply includes_app|]]].
  - unfold main.
    rewrite (bind_Return _ _ _ _ _ (env_present _ _ None w api_set)). cbv zeta.
    apply bind_Exited. unfold init.
    rewrite (bind_Return _ _ _ _ _ (env_present _ _ None w handler_set)). cbv zeta.
    rewrite (bind_Return _ _ _ _ _ (env_present _ _ None w root_set)).
    unfold bind at 1. unfold emit. rewrite Himport.
    cbn [instanceof_Error andb]. rewrite Hmessage.
    apply throwError_init.
  - unfold init_failure. cbv zeta. eexists _, _. cbn [trace importing].
    by rewrite <- !app_assoc.
Qed.

End MissingModule.

(** ** The shape of a turn *)

Lemma bind_inv {A B} (m : M A) (k : A -> M B) (w w' : World) (b : B) :
  bind m k w = Return b w' ->
  exists a w1, m w = Return a w1 /\ k a w1 = Return b w'.
Proof.
  unfold bind. destruct (m w) as [a w1|code w1]; [eauto | discriminate].
Qed.

Lemma receiveRequest_inv (P : Platform) (runtimeUrl : string) (w w1 : World)
    (request : LambdaRequest) :
  receiveRequest P runtimeUrl w = Return request w1 ->
  exists delay response,
    host P (trace w) (URL_href P "invocation/next" runtimeUrl) None = (delay, response)
    /\ ok response = true
    /\ headers_get response "Lambda-Runtime-Aws-Request-Id" = Some (requestId request)
    /\ headers_get response "Lambda-Runtime-Trace-Id" = Some (traceId request)
    /\ JSON_parse P (text response) = Normal (event request).
Proof.
  destruct (host P (trace w) (URL_href P "invocation/next" runtimeUrl) None)
    as [delay response] eqn:Hhost.
  unfold receiveRequest, fetchNextInvocation, bind.
  rewrite (lambdaFetch_run P runtimeUrl _ None w delay response Hhost).
  destruct (ok response) eqn:Hok; [|discriminate].
  destruct (headers_get response "Lambda-Runtime-Aws-Request-Id") as [id|] eqn:Hid;
    [|discriminate].
  destruct (headers_get response "Lambda-Runtime-Trace-Id") as [tid|] eqn:Htid;
    [|discriminate].
  destruct (JSON_parse P (text response)) as [payload|cause] eqn:Hparse; [|discriminate].
  intros [= <- _]. by exists delay, response.
Qed.

Lemma lambdaFetch_inv (P : Platform) (runtimeUrl url : string)
    (options : option RequestInit) (w w' : World) (response : Response) :
  lambdaFetch P runtimeUrl url options w = Return response w' ->
  ok response = true
  /\ process_env w' = process_env w
  /\ trace w' = trace w ++ [EvFetch (URL_href P url runtimeUrl) options response].
Proof.
  destruct (host P (trace w) (URL_href P url runtimeUrl) options)
    as [delay response0] eqn:Hhost.
  rewrite (lambdaFetch_run P runtimeUrl url options w delay response0 Hhost).
  destruct (ok response0) eqn:Hok; [|discriminate].
  by intros [= <- <-].
Qed.

(** What a turn that ends normally has done. *)
Lemma iteration_inv (P : Platform) (runtimeUrl : string) (fid : nat)
    (w w' : World) :
  iteration P runtimeUrl (JFun fid) w = Return tt w' ->
  exists response id tid payload href options response',
    trace w' = trace w ++ [EvFetch (URL_href P "invocation/next" runtimeUrl) None response;
                           EvCall fid payload (Some tid);
                           EvFetch href (Some options) response']
    /\ ok response = true
    /\ headers_get response "Lambda-Runtime-Aws-Request-Id" = Some id
    /\ headers_get response "Lambda-Runtime-Trace-Id" = Some tid
    /\ JSON_parse P (text response) = Normal payload
    /\ (href = URL_href P ("invocation/" +:+ id +:+ "/response") runtimeUrl
        \/ href = URL_href P ("invocation/" +:+ id +:+ "/error") runtimeUrl)
    /\ ok response' = true
    /\ process_env w' = delete "_X_AMZN_TRACE_ID"
                          (<["_X_AMZN_TRACE_ID" := tid]> (process_env w)).
Proof.
  intros Hturn.
  assert (exists request w1, receiveRequest P runtimeUrl w = Return request w1)
    as (request & w1 & Hrecv).
  { unfold iteration in Hturn. apply bind_inv in Hturn as (request & w1 & Hrecv & _).
    eauto. }
  destruct (receiveRequest_inv _ _ _ _ _ Hrecv)
    as (delay & response & Hhost & Hok & Hid & Htid & Hparse).
  rewrite (iteration_run P runtimeUrl w delay response _ _ _ fid Hhost Hok Hid Htid Hparse)
    in Hturn.
  cbv zeta in Hturn.
  destruct (Promise_race _ _) as [elapsed awaited] in Hturn. cbn [fst snd] in Hturn.
  exists response, (requestId request), (traceId request), (event request).
  unfold report in Hturn. cbn [requestId] in Hturn.
  destruct awaited as [[result late]|cause].
  - unfold bind at 1 in Hturn. unfold resetTraceId in Hturn. cbn [timeout data] in Hturn.
    destruct late.
    + apply bind_inv in Hturn as (response' & w2 & Hsent & Hret).
      injection Hret as <-.
      apply lambdaFetch_inv in Hsent as (Hok' & Henv & Htrace).
      eexists _, _, response'. rewrite Htrace, Henv. cbn [trace process_env after_race answered].
      rewrite <- !app_assoc. eauto 10.
    + apply bind_inv in Hturn as (response' & w2 & Hsent & Hret).
      injection Hret as <-.
      apply lambdaFetch_inv in Hsent as (Hok' & Henv & Htrace).
      eexists _, _, response'. rewrite Htrace, Henv. cbn [trace process_env after_race answered].
      rewrite <- !app_assoc. eauto 10.
  - apply bind_inv in Hturn as (response' & w2 & Hsent & Hreset).
    injection Hreset as <-.
    apply lambdaFetch_inv in Hsent as (Hok' & Henv & Htrace).
    eexists _, _, response'. cbn [trace process_env]. rewrite Htrace, Henv.
    cbn [trace process_env after_race answered].
    rewrite <- !app_assoc. eauto 10.
Qed.

(** X1. A turn of the loop that ends without ending the process has
    done exactly three things, in this order: it polled and got a
    well-formed invocation, it called the handler once with the trace
    id of that invocation in the environment slot, and it sent one
    report, which the host accepted, to the response or the error
    address of that invocation's request id.  It leaves the slot
    empty. *)
Theorem turn_is_poll_call_report (P : Platform) (runtimeUrl : string) (fid : nat)
    (w w' : World) :
  iteration P runtimeUrl (JFun fid) w = Return tt w' ->
  exists response id tid payload href options response',
    trace w' = trace w ++ [EvFetch (URL_href P "invocation/next" runtimeUrl) None response;
                           EvCall fid payload (Some tid);
                           EvFetch href (Some options) response']
    /\ ok response = true
    /\ headers_get response "Lambda-Runtime-Aws-Request-Id" = Some id
    /\ headers_get response "Lambda-Runtime-Trace-Id" = Some tid
    /\ JSON_parse P (text response) = Normal payload
    /\ (href = URL_href P ("invocation/" +:+ id +:+ "/response") runtimeUrl
        \/ href = URL_href P ("invocation/" +:+ id +:+ "/error") runtimeUrl)
    /\ ok response' = true
    /\ process_env w' = delete "_X_AMZN_TRACE_ID"
                          (<["_X_AMZN_TRACE_ID" := tid]> (process_env w)).
Proof.
  intros Hturn.
  destruct (iteration_inv P runtimeUrl fid w w' Hturn)
    as (response & id & tid & payload & href & options & response' & H).
  by exists response, id, tid, payload, href, options, response'.
Qed.




(** ** Cold start, continued *)

Lemma env_inv (name : string) (fallback : option string) (w w' : World) (value : string) :
  env name fallback w = Return value w' -> w' = w.
Proof.
  unfold env, bind, getenv. destruct (process_env w !! name); [by intros [= _ <-]|].
  destruct fallback; [by intros [= _ <-] | discriminate].
Qed.

Lemma env_absent (name : string) (w : World) :
  process_env w !! name = None ->
  env name None w =
    Exited 1 {| process_env := process_env w; clock := clock w;
                trace := trace w
                         ++ [EvConsoleError
                               [JStr ("Runtime failed to find the '" +:+ name
                                      +:+ "' environment variable")]] |}.
Proof. intros H. unfold env, bind, getenv. by rewrite H. Qed.

(** X3. When [init] returns, what it returns is a function, and all it
    has done is import one module: no request has been sent and the
    environment is as it was. *)
Theorem init_returns_a_function (P : Platform) (runtimeUrl : string) (w w' : World)
    (handler : JsValue) :
  init P runtimeUrl w = Return handler w' ->
  (exists fid, handler = JFun fid)
  /\ process_env w' = process_env w
  /\ exists filePath file,
      import_ P filePath = Normal file
      /\ trace w' = trace w ++ [EvImport filePath].
Proof.
  unfold init. intros Hinit.
  apply bind_inv in Hinit as (handlerName & w1 & Hname & Hinit).
  apply env_inv in Hname as ->. cbv zeta in Hinit.
  apply bind_inv in Hinit as (root & w1 & Hroot & Hinit).
  apply env_inv in Hroot as ->.
  unfold bind at 1 in Hinit. unfold emit in Hinit.
  destruct (import_ P _) as [file|cause] eqn:Himport in Hinit.
  - rewrite typeof_not_function in Hinit.
    destruct (nullish _ _) eqn:Hresolved in Hinit;
      try (rewrite throwError_init in Hinit; discriminate).
    injection Hinit as <- <-. eauto 10.
  - destruct (_ && _) in Hinit; rewrite throwError_init in Hinit; discriminate.
Qed.

(** X4. When one of the three environment variables the runtime needs
    is not set, the process writes one message naming a variable that
    is not set and exits with status 1: it imports nothing and sends no
    request, not even an initialization error. *)
Theorem missing_configuration_is_fatal (P : Platform) (turns : nat) (w : World) :
  process_env w !! "AWS_LAMBDA_RUNTIME_API" = None
  \/ process_env w !! "_HANDLER" = None
  \/ process_env w !! "LAMBDA_TASK_ROOT" = None ->
  exists name,
    process_env w !! name = None
    /\ main P turns w =
         Exited 1 {| process_env := process_env w; clock := clock w;
                     trace := trace w
                              ++ [EvConsoleError
                                    [JStr ("Runtime failed to find the '" +:+ name
                                           +:+ "' environment variable")]] |}.
Proof.
  intros Hmissing. unfold main.
  destruct (process_env w !! "AWS_LAMBDA_RUNTIME_API") as [api|] eqn:Hapi.
  - rewrite (bind_Return _ _ _ _ _ (env_present _ _ None w Hapi)). cbv zeta.
    unfold init.
    destruct (process_env w !! "_HANDLER") as [handlerName|] eqn:Hhandler.
    + destruct (process_env w !! "LAMBDA_TASK_ROOT") as [root|] eqn:Hroot.
      * destruct Hmissing as [?|[?|?]]; discriminate.
      * exists "LAMBDA_TASK_ROOT". split; [done|].
        apply bind_Exited.
        rewrite (bind_Return _ _ _ _ _ (env_present _ _ None w Hhandler)). cbv zeta.
        apply bind_Exited. by apply env_absent.
    + exists "_HANDLER". split; [done|].
      apply bind_Exited, bind_Exited. by apply env_absent.
  - exists "AWS_LAMBDA_RUNTIME_API". split; [done|].
    apply bind_Exited. by apply env_absent.
Qed.

(** X5. When the import of the handler's module throws anything but a
    native failure whose message starts with ["Cannot find module"],
    the process sends one request, an initialization error of type
    ["InitError"] whose message is the rendering of the thrown value,
    and exits with status 1 without polling. *)
Theorem import_failure_is_reported (P : Platform) (w : World)
    (api handlerName root : string) (cause : JsValue) (turns : nat) :
  let runtimeUrl := "http://" +:+ api +:+ "/2018-06-01/runtime/" in
  let fileName := substring 0 (lastIndexOf "."%char handlerName) handlerName in
  let filePath := root +:+ "/" +:+ fileName in
  let error := JObj [("type", JStr "InitError"); ("cause", cause)] in
  let envelope := {| errorType := JStr "InitError";
                     errorMessage := Bun_inspect P cause;
                     stackTrace := None |} in
  process_env w !! "AWS_LAMBDA_RUNTIME_API" = Some api ->
  process_env w !! "_HANDLER" = Some handlerName ->
  process_env w !! "LAMBDA_TASK_ROOT" = Some root ->
  import_ P filePath = Throws cause ->
  (forall name message stack,
      cause = JError name message stack ->
      startsWith "Cannot find module" message = false) ->
  main P turns w = Exited 1 (init_failure P runtimeUrl error (importing w filePath))
  /\ formatError P error = envelope
  /\ exists response said,
      trace (init_failure P runtimeUrl error (importing w filePath))
      = trace w ++ [EvImport filePath;
                    EvConsoleError [error];
                    EvFetch (URL_href P "init/error" runtimeUrl)
                      (Some (error_options P envelope)) response;
                    EvConsoleError said].
Proof.
  intros runtimeUrl fileName filePath error envelope Hapi Hhandler Hroot Himport Hother.
  split; [|split; [done|]].
  - unfold main.
    rewrite (bind_Return _ _ _ _ _ (env_present _ _ None w Hapi)). cbv zeta.
    apply bind_Exited. unfold init.
    rewrite (bind_Return _ _ _ _ _ (env_present _ _ None w Hhandler)). cbv zeta.
    rewrite (bind_Return _ _ _ _ _ (env_present _ _ None w Hroot)).
    unfold bind at 1. unfold emit. fold fileName. fold filePath. rewrite Himport.
    assert (instanceof_Error cause
            && match cause with
               | JError _ message _ => startsWith "Cannot find module" message
               | _ => false
               end = false) as ->.
    { destruct cause; try done. simpl. by eapply Hother. }
    apply throwError_init.
  - unfold init_failure. cbv zeta. eexists _, _. cbn [trace importing].
    by rewrite <- !app_assoc.
Qed.

Lemma init_failure_trace (P : Platform) (runtimeUrl : string) (error : JsValue)
    (w : World) :
  exists response said,
    trace (init_failure P runtimeUrl error w)
    = trace w ++ [EvConsoleError [error];
                  EvFetch (URL_href P "init/error" runtimeUrl)
                    (Some (error_options P (formatError P error))) response;
                  EvConsoleError said].
Proof.
  unfold init_failure. cbv zeta. eexists _, _. cbn [trace]. by rewrite <- app_assoc.
Qed.

(** X9. However the cold start fails, the process exits with status 1
    with its environment as it was, and it has either found a variable
    missing, written one message and sent nothing, or imported one
    module, written the error and sent exactly one request, the
    initialization error for it.  It has not polled. *)
Theorem cold_start_fails_with_at_most_one_report (P : Platform) (runtimeUrl : string)
    (w w' : World) (code : Z) :
  init P runtimeUrl w = Exited code w' ->
  code = 1
  /\ process_env w' = process_env w
  /\ ((exists name,
         process_env w !! name = None
         /\ trace w' = trace w
                       ++ [EvConsoleError
                             [JStr ("Runtime failed to find the '" +:+ name
                                    +:+ "' environment variable")]])
      \/ (exists filePath error response said,
            trace w' = trace w
                       ++ [EvImport filePath;
                           EvConsoleError [error];
                           EvFetch (URL_href P "init/error" runtimeUrl)
                             (Some (error_options P (formatError P error))) response;
                           EvConsoleError said])).
Proof.
  unfold init. intros Hinit.
  destruct (process_env w !! "_HANDLER") as [handlerName|] eqn:Hhandler.
  2: { rewrite (bind_Exited _ _ _ _ _ (env_absent _ w Hhandler)) in Hinit.
       injection Hinit as <- <-. split; [done|]. split; [done|]. left. eauto. }
  rewrite (bind_Return _ _ _ _ _ (env_present _ _ None w Hhandler)) in Hinit.
  cbv zeta in Hinit.
  destruct (process_env w !! "LAMBDA_TASK_ROOT") as [root|] eqn:Hroot.
  2: { rewrite (bind_Exited _ _ _ _ _ (env_absent _ w Hroot)) in Hinit.
       injection Hinit as <- <-. split; [done|]. split; [done|]. left. eauto. }
  rewrite (bind_Return _ _ _ _ _ (env_present _ _ None w Hroot)) in Hinit.
  unfold bind at 1 in Hinit. unfold emit in Hinit.
  match type of Hinit with
  | context [importing] => idtac
  | context [{| process_env := process_env w; clock := clock w;
                trace := trace w ++ [EvImport ?path] |}] =>
      change {| process_env := process_env w; clock := clock w;
                trace := trace w ++ [EvImport path] |}
        with (importing w path) in Hinit
  end.
  assert (forall error filePath,
             @Exited JsValue 1 (init_failure P runtimeUrl error (importing w filePath))
             = Exited code w' ->
             code = 1
             /\ process_env w' = process_env w
             /\ exists response said,
                 trace w' = trace w
                            ++ [EvImport filePath;
                                EvConsoleError [error];
                                EvFetch (URL_href P "init/error" runtimeUrl)
                                  (Some (error_options P (formatError P error))) response;
                                EvConsoleError said]) as Hreported.
  { intros error filePath [= <- <-]. split; [done|]. split; [done|].
    destruct (init_failure_trace P runtimeUrl error (importing w filePath))
      as (response & said & ->).
    exists response, said. cbn [trace importing]. by rewrite <- app_assoc. }
  destruct (import_ P _) as [file|cause] in Hinit.
  - rewrite typeof_not_function in Hinit.
    destruct (nullish _ _) in Hinit; try discriminate;
      rewrite throwError_init in Hinit;
      apply Hreported in Hinit as (-> & Henv & response & said & Htrace);
      (split; [done|]; split; [done|]; right; eauto 10).
  - destruct (_ && _) in Hinit; rewrite throwError_init in Hinit;
      apply Hreported in Hinit as (-> & Henv & response & said & Htrace);
      (split; [done|]; split; [done|]; right; eauto 10).
Qed.

(** ** The handler identifier *)

Lemma lastIndexOf_from_absent (c : ascii) (s : string) (pos found : Z) :
  includes (String c EmptyString) s = false ->
  lastIndexOf_from c s pos found = found.
Proof.
  revert pos found. induction s as [|d rest IH]; intros pos found; [done|].
  cbn [includes String.prefix lastIndexOf_from].
  destruct (ascii_dec c d) as [->|Hne].
  - by destruct rest.
  - intros Hrest. rewrite orb_false_l in Hrest.
    destruct (Ascii.eqb_spec d c) as [->|_]; [done|]. by apply IH.
Qed.

Lemma lastIndexOf_from_last (c : ascii) (before after : string) (pos found : Z) :
  includes (String c EmptyString) after = false ->
  lastIndexOf_from c (before +:+ String c after) pos found = pos + str_length before.
Proof.
  intros Hafter. revert pos found.
  induction before as [|d before IH]; intros pos found.
  - change (lastIndexOf_from c after (pos + 1) (if Ascii.eqb c c then pos else found)
            = pos + str_length EmptyString).
    rewrite Ascii.eqb_refl, lastIndexOf_from_absent by done.
    unfold str_length. simpl. lia.
  - change (lastIndexOf_from c (before +:+ String c after) (pos + 1)
              (if Ascii.eqb d c then pos else found)
            = pos + str_length (String d before)).
    rewrite IH. unfold str_length. cbn [String.length]. lia.
Qed.

(** A string either has no [c], or splits around its last [c]. *)
Lemma last_occurrence (c : ascii) (s : string) :
  includes (String c EmptyString) s = false
  \/ exists before after,
      s = before +:+ String c after
      /\ includes (String c EmptyString) after = false.
Proof.
  induction s as [|d rest IH]; [by left|].
  destruct IH as [Hrest|(before & after & -> & Hafter)].
  - destruct (ascii_dec c d) as [->|Hne].
    + right. by exists EmptyString, rest.
    + left. cbn [includes String.prefix].
      destruct (ascii_dec c d); [done|]. by rewrite orb_false_l.
  - right. by exists (String d before), after.
Qed.

Lemma includes_char_app (c : ascii) (before after : string) :
  includes (String c EmptyString) (before +:+ String c after) = true.
Proof. exact (includes_app (String c EmptyString) before after). Qed.

Lemma substring_all (s : string) : String.substring 0 (String.length s) s = s.
Proof. induction s as [|d s IH]; simpl; [done|]. by rewrite IH. Qed.

Lemma substring_prefix (before rest : string) :
  String.substring 0 (String.length before) (before +:+ rest) = before.
Proof.
  induction before as [|d before IH]; simpl; [by destruct rest|]. by rewrite IH.
Qed.

Lemma substring_after (c : ascii) (before after : string) :
  String.substring (S (String.length before)) (String.length after)
    (before +:+ String c after) = after.
Proof.
  induction before as [|d before IH]; simpl; [apply substring_all | exact IH].
Qed.

Lemma length_app (a b : string) :
  String.length (a +:+ b) = (String.length a + String.length b)%nat.
Proof. induction a as [|d a IH]; simpl; [done|]. by rewrite IH. Qed.

(** Within bounds [substring] is the library's, which takes a start and
    a length. *)
Lemma substring_within (start stop : Z) (s : string) :
  0 <= start <= stop -> stop <= str_length s ->
  substring start stop s = String.substring (Z.to_nat start) (Z.to_nat (stop - start)) s.
Proof.
  intros Hstart Hstop. unfold substring. cbv zeta. f_equal; lia.
Qed.

Lemma substring_to_minus_one (s : string) : substring 0 (-1) s = EmptyString.
Proof.
  unfold substring, str_length. cbv zeta.
  match goal with
  | |- String.substring ?a ?b _ = _ =>
      replace a with 0%nat by lia; replace b with 0%nat by lia
  end.
  by destruct s.
Qed.

(** X6. [init] cuts the handler identifier at its last dot: the module
    name it is left with has no dot; when the identifier has a dot, the
    file name, a dot and the module name give the identifier back; when
    it has none, the file name is empty and the module name is the whole
    identifier. *)
Theorem handler_identifier_is_cut_at_last_dot (handlerName : string) :
  let index := lastIndexOf "."%char handlerName in
  let fileName := substring 0 index handlerName in
  let moduleName := substring_from (index + 1) handlerName in
  includes "." moduleName = false
  /\ if includes "." handlerName
     then handlerName = fileName +:+ "." +:+ moduleName
     else fileName = EmptyString /\ moduleName = handlerName.
Proof.
  intros index fileName moduleName.
  destruct (last_occurrence "."%char handlerName)
    as [Hnone|(before & after & Hcut & Hafter)].
  - assert (index = -1) as Hindex by (by apply lastIndexOf_from_absent).
    assert (moduleName = handlerName) as Hmodule.
    { subst moduleName. rewrite Hindex. unfold substring_from.
      rewrite substring_within by (unfold str_length; lia).
      unfold str_length. rewrite Z.sub_0_r, Nat2Z.id. apply substring_all. }
    rewrite Hmodule. change (includes "." handlerName) with
      (includes (String "."%char EmptyString) handlerName).
    rewrite Hnone. split; [done|]. split; [|done].
    subst fileName. rewrite Hindex. apply substring_to_minus_one.
  - assert (index = str_length before) as Hindex.
    { subst index. unfold lastIndexOf. rewrite Hcut.
      rewrite lastIndexOf_from_last by done. lia. }
    assert (str_length handlerName = str_length before + 1 + str_length after) as Hlength.
    { rewrite Hcut. unfold str_length. rewrite length_app. cbn [String.length]. lia. }
    assert (fileName = before) as Hfile.
    { subst fileName. rewrite Hindex.
      rewrite substring_within by (unfold str_length in *; lia).
      unfold str_length. rewrite Z.sub_0_r, Nat2Z.id. rewrite Hcut.
      apply substring_prefix. }
    assert (moduleName = after) as Hmodule.
    { subst moduleName. rewrite Hindex. unfold substring_from.
      rewrite substring_within by (unfold str_length in *; lia).
      rewrite Hlength. unfold str_length.
      replace (Z.to_nat (Z.of_nat (String.length before) + 1))
        with (S (String.length before)) by lia.
      replace (Z.to_nat (Z.of_nat (String.length before) + 1
                         + Z.of_nat (String.length after)
                         - (Z.of_nat (String.length before) + 1)))
        with (String.length after) by lia.
      rewrite Hcut. apply substring_after. }
    rewrite Hfile, Hmodule. split; [exact Hafter|].
    assert (includes "." handlerName = true) as ->.
    { rewrite Hcut. apply includes_char_app. }
    exact Hcut.
Qed.

(** ** The deadline header *)

(** X7. For a well-formed poll response the budget of the invocation is
    decided by the deadline header as [parseInt] reads it: a number
    other than zero is the deadline, and the budget is what is left
    until then at the time the response arrives, but at least one
    millisecond, also when the deadline has passed or is negative; a
    header that is absent (read as ["0"]), zero or not a number gives
    the 60 second window. *)
Theorem budget_from_deadline_header (P : Platform) (runtimeUrl : string) (w : World)
    (delay : Z) (response : Response) (id tid : string) (payload : JsValue) :
  let poll := URL_href P "invocation/next" runtimeUrl in
  let header := default "0" (headers_get response "Lambda-Runtime-Deadline-Ms") in
  let budget := match parseInt P header with
                | Some n => if n =? 0 then 60000 else Z.max 1 (n - (clock w + delay))
                | None => 60000
                end in
  host P (trace w) poll None = (delay, response) ->
  ok response = true ->
  headers_get response "Lambda-Runtime-Aws-Request-Id" = Some id ->
  headers_get response "Lambda-Runtime-Trace-Id" = Some tid ->
  JSON_parse P (text response) = Normal payload ->
  bind (receiveRequest P runtimeUrl) (fun request => durationMs (deadlineMs request)) w
  = Return budget (answered w poll None delay response)
  /\ 1 <= budget.
Proof.
  intros poll header budget Hhost Hok Hid Htid Hparse. split.
  - rewrite (bind_Return _ _ _ _ _
               (receiveRequest_run P runtimeUrl w delay response id tid payload
                  Hhost Hok Hid Htid Hparse)).
    cbn [deadlineMs]. unfold deadline_of. fold header. subst budget.
    destruct (parseInt P header) as [n|]; [destruct (n =? 0)|];
      unfold durationMs, bind, Date_now, ret; cbn [clock answered]; f_equal; lia.
  - subst budget. destruct (parseInt P header) as [n|]; [destruct (n =? 0)|]; lia.
Qed.

(** ** The environment *)

Lemma keeps_env_ret {A} (a : A) : keeps_env (ret a).
Proof. by intros w name _. Qed.

Lemma keeps_env_bind {A B} (m : M A) (k : A -> M B) :
  keeps_env m -> (forall a, keeps_env (k a)) -> keeps_env (bind m k).
Proof.
  intros Hm Hk w name Hname. unfold bind. specialize (Hm w name Hname).
  destruct (m w) as [a w'|code w']; simpl in *; [|done].
  by rewrite (Hk a w' name Hname).
Qed.

Lemma keeps_env_emit (e : Event) : keeps_env (emit e).
Proof. by intros w name _. Qed.

Lemma keeps_env_sleep (ms : Z) : keeps_env (sleep ms).
Proof. by intros w name _. Qed.

Lemma keeps_env_exit {A} (cause : list JsValue) : keeps_env (@exit A cause).
Proof. by intros w name _. Qed.

Lemma keeps_env_Date_now : keeps_env Date_now.
Proof. by intros w name _. Qed.

Lemma keeps_env_getenv (name : string) : keeps_env (getenv name).
Proof. by intros w name' _. Qed.

Lemma keeps_env_setTraceId (traceId : string) : keeps_env (setTraceId traceId).
Proof. intros w name Hname. simpl. by rewrite lookup_insert_ne. Qed.

Lemma keeps_env_resetTraceId : keeps_env resetTraceId.
Proof. intros w name Hname. simpl. by rewrite lookup_delete_ne. Qed.

Lemma keeps_env_fetch (P : Platform) href options : keeps_env (fetch P href options).
Proof.
  intros w name _. unfold fetch. by destruct (host P (trace w) href options).
Qed.

Lemma keeps_env_invoke (P : Platform) lambda payload : keeps_env (invoke P lambda payload).
Proof. intros w name _. unfold invoke. by destruct lambda. Qed.

Create HintDb keeps_env.

#[local] Hint Resolve keeps_env_ret keeps_env_emit keeps_env_sleep keeps_env_exit
  keeps_env_Date_now keeps_env_getenv keeps_env_setTraceId keeps_env_resetTraceId
  keeps_env_fetch keeps_env_invoke : keeps_env.

(** Splits a sequence of computations and closes the pieces with the
    lemmas collected so far. *)
Ltac keeps_env :=
  repeat first
    [ progress auto with keeps_env
    | match goal with
      | |- keeps_env (bind _ _) => apply keeps_env_bind; [|intros ?]
      | |- keeps_env (let _ := _ in _) => cbv zeta
      | |- keeps_env (match ?x with _ => _ end) => destruct x
      | |- keeps_env (if ?b then _ else _) => destruct b
      end ].

Lemma keeps_env_loop (P : Platform) (runtimeUrl : string) (turns : nat) (lambda : JsValue) :
  keeps_env (loop P runtimeUrl turns lambda).
Proof.
  induction turns as [|n IH]; cbn [loop]; [keeps_env|].
  apply keeps_env_bind; [|by intros _].
  unfold iteration, receiveRequest, fetchNextInvocation, lambdaFetch, durationMs, report,
    sendInvocationError, sendInvocationResponse, sendBaseError, lambdaFetch.
  keeps_env.
Qed.

Lemma keeps_env_init (P : Platform) (runtimeUrl : string) : keeps_env (init P runtimeUrl).
Proof.
  unfold init, env, throwError, sendInitError, sendBaseError, lambdaFetch. keeps_env.
Qed.

(** X8. Whatever happens in a run, the runtime leaves every environment
    variable other than the trace id slot as it found it. *)
Theorem runtime_keeps_the_environment (P : Platform) (turns : nat) (w : World)
    (name : string) :
  name <> "_X_AMZN_TRACE_ID" ->
  process_env (state_of (main P turns w)) !! name = process_env w !! name.
Proof.
  revert w name. change (keeps_env (main P turns)). unfold main.
  apply keeps_env_bind; [unfold env; keeps_env|]. intros api. cbv zeta.
  apply keeps_env_bind; [apply keeps_env_init|]. intros lambda.
  apply keeps_env_loop.
Qed.

(** ** The publish command *)

Section Publishing.

Import PublishCommand.

Context (P : Platform) (sh : Shell).

Lemma spawned_app (a b : list Action) : spawned (a ++ b) = spawned a ++ spawned b.
Proof.
  induction a as [|[args|args|args returned] a IH]; simpl; [done| | |]; by rewrite ?IH.
Qed.

Lemma andThen_Finished {A B} (c : C A) (k : A -> C B) (past past' : list Action) (a : A) :
  c past = Finished a past' -> andThen c k past = k a past'.
Proof. unfold andThen. by intros ->. Qed.

Lemma andThen_Threw {A B} (c : C A) (k : A -> C B) (past past' : list Action)
    (cause : JsValue) :
  c past = Threw cause past' -> andThen c k past = Threw cause past'.
Proof. unfold andThen. by intros ->. Qed.

(** A call of [aws] that exits with status 0 returns its trimmed
    output. *)
Lemma aws_returns (args : list JsValue) (past : list Action) (stdout : string) :
  let said := Debug (JStr "$" :: JStr "aws" :: args) in
  let returned := spawnSync sh (past ++ [said]) args in
  sp_status returned = Some 0 ->
  sp_stdout returned = Some stdout ->
  aws P sh args past = Finished (trim sh stdout) (past ++ [said; Spawn args returned]).
Proof.
  intros said returned Hstatus Hstdout. unfold aws, andThen, debug, spawn.
  fold said. fold returned. rewrite Hstdout, Hstatus. unfold pure.
  by rewrite <- app_assoc.
Qed.

(** Any other call of [aws] throws. *)
Lemma aws_throws (args : list JsValue) (past : list Action) :
  let said := Debug (JStr "$" :: JStr "aws" :: args) in
  let returned := spawnSync sh (past ++ [said]) args in
  sp_status returned <> Some 0 \/ sp_stdout returned = None ->
  exists cause, aws P sh args past = Threw cause (past ++ [said; Spawn args returned]).
Proof.
  intros said returned Hfails. unfold aws, andThen, debug, spawn.
  fold said. fold returned. rewrite <- app_assoc. cbn [app].
  destruct (sp_stdout returned) as [stdout|]; [|by eexists].
  destruct Hfails as [Hstatus|]; [|done].
  destruct (sp_status returned) as [[|code|code]|]; [done| | |];
    destruct (sp_stderr returned); by eexists.
Qed.

Lemma for_each_app {A} (xs ys : list A) (body : A -> C unit) (past : list Action) :
  for_each (xs ++ ys) body past
  = andThen (for_each xs body) (fun _ => for_each ys body) past.
Proof.
  revert past. induction xs as [|x xs IH]; intros past; [done|].
  cbn [app for_each]. unfold andThen in *.
  destruct (body x past) as [[] past'| |]; [|done|done]. apply IH.
Qed.

Lemma for_each_map {A B} (f : A -> B) (xs : list A) (body : B -> C unit)
    (past : list Action) :
  for_each (map f xs) body past = for_each xs (fun x => body (f x)) past.
Proof.
  revert past. induction xs as [|x xs IH]; intros past; [done|].
  cbn [map for_each]. unfold andThen.
  destruct (body (f x) past) as [[] past'| |]; [|done|done]. apply IH.
Qed.

(** The two nested loops go through the pairs in order. *)
Lemma for_each_pairs {A B} (xs : list A) (ys : list B) (body : A -> B -> C unit)
    (past : list Action) :
  for_each xs (fun x => for_each ys (body x)) past
  = for_each (pairs xs ys) (fun p => body p.1 p.2) past.
Proof.
  revert past. induction xs as [|x xs IH]; intros past; [done|].
  unfold pairs. cbn [flat_map for_each]. rewrite for_each_app.
  unfold andThen. rewrite for_each_map. cbn [fst snd].
  destruct (for_each ys _ past) as [[] past'| |]; [|done|done]. apply IH.
Qed.

(** [run] up to the check of the command line, when [aws --version]
    answers. *)
Lemma run_checked (flags : Flags) (past : list Action) :
  answers sh version_args ->
  exists checked,
    run P sh flags past
    = andThen (regions P sh flags) (fun region =>
      andThen (log [JStr "Publishing..."]) (fun _ =>
      andThen (for_each region (fun regionName =>
                 for_each (JStr <$> layer flags) (fun layerName =>
                   publish P sh (arch flags) (output flags) regionName layerName))) (fun _ =>
      log [JStr "Done"]))) checked
    /\ spawned checked = spawned past ++ [version_args].
Proof.
  intros Hversion. unfold run. unfold andThen at 1. unfold debug at 1.
  set (start := past ++ [Debug [JStr "Options:"; flags_object flags]]).
  destruct (Hversion (start ++ [Debug (JStr "$" :: JStr "aws" :: version_args)]))
    as (stdout & Hstatus & Hstdout).
  pose proof (aws_returns version_args start stdout Hstatus Hstdout) as Haws.
  eexists. split.
  - unfold andThen at 1. unfold try_catch.
    rewrite (andThen_Finished _ _ _ _ _ Haws). unfold debug at 1. reflexivity.
  - subst start. rewrite !spawned_app. simpl. by rewrite !app_nil_r.
Qed.

(** X10. When [aws --version] does not exit with status 0, or gives no
    output, the command is stopped with the advice to install the
    command line and exit status 1; that check is the only process it
    has started. *)
Theorem publish_needs_the_aws_cli (flags : Flags) (past : list Action) :
  let options := Debug [JStr "Options:"; flags_object flags] in
  let said := Debug (JStr "$" :: JStr "aws" :: version_args) in
  let returned := spawnSync sh (past ++ [options; said]) version_args in
  sp_status returned <> Some 0 \/ sp_stdout returned = None ->
  exists cause,
    run P sh flags past
    = Stopped install_message 1
        (past ++ [options; said; Spawn version_args returned; Debug [cause]]).
Proof.
  intros options said returned Hfails.
  unfold run. unfold andThen at 1. unfold debug at 1. fold options.
  destruct (aws_throws version_args (past ++ [options])) as (cause & Haws).
  { cbv zeta. fold said. by rewrite <- app_assoc. }
  exists cause. unfold andThen at 1. unfold try_catch.
  rewrite (andThen_Threw _ _ _ _ _ Haws). unfold andThen, debug, error.
  fold said. rewrite <- !app_assoc. cbn [app]. fold returned. reflexivity.
Qed.

(** One layer published in one region: one process, one line logged. *)
Lemma publish_returns (arch output : string) (regionName layerName : JsValue)
    (past : list Action) :
  publishes P sh (publish_args arch output regionName layerName) ->
  exists past',
    publish P sh arch output regionName layerName past = Finished tt past'
    /\ spawned past' = spawned past ++ [publish_args arch output regionName layerName].
Proof.
  intros Hpublishes. unfold publish.
  set (args := publish_args arch output regionName layerName) in *.
  destruct (Hpublishes (past ++ [Debug (JStr "$" :: JStr "aws" :: args)]))
    as (stdout & value & Hstatus & Hstdout & Hparse & Hnull & Hundefined).
  rewrite (andThen_Finished _ _ _ _ _ (aws_returns args past stdout Hstatus Hstdout)).
  unfold parse. rewrite Hparse. unfold andThen at 1. unfold pure at 1.
  unfold LayerVersionArn. destruct value; try discriminate;
    (eexists; split; [reflexivity|]; rewrite !spawned_app; simpl;
     by rewrite !app_nil_r).
Qed.

Lemma publish_each (arch output : string) (todo : list (JsValue * JsValue))
    (past : list Action) :
  (forall p, p ∈ todo -> publishes P sh (publish_args arch output p.1 p.2)) ->
  exists past',
    for_each todo (fun p => publish P sh arch output p.1 p.2) past = Finished tt past'
    /\ spawned past'
       = spawned past ++ ((fun p => publish_args arch output p.1 p.2) <$> todo).
Proof.
  revert past. induction todo as [|p todo IH]; intros past Hall.
  - exists past. by rewrite app_nil_r.
  - destruct (publish_returns arch output p.1 p.2 past) as (past1 & Hone & Hspawned1).
    { apply Hall. by left. }
    destruct (IH past1) as (past' & Hrest & Hspawned).
    { intros q Hq. apply Hall. by right. }
    exists past'. cbn [for_each]. rewrite (andThen_Finished _ _ _ _ _ Hone).
    split; [exact Hrest|]. rewrite Hspawned, Hspawned1, <- app_assoc. done.
Qed.

(** [run] from the point where the regions are known, when every
    publication goes well. *)
Lemma publish_everywhere (flags : Flags) (names : list JsValue) (past : list Action) :
  let todo := pairs names (JStr <$> layer flags) in
  (forall p, p ∈ todo -> publishes P sh (publish_args (arch flags) (output flags) p.1 p.2)) ->
  exists past',
    andThen (log [JStr "Publishing..."]) (fun _ =>
    andThen (for_each names (fun regionName =>
               for_each (JStr <$> layer flags) (fun layerName =>
                 publish P sh (arch flags) (output flags) regionName layerName))) (fun _ =>
    log [JStr "Done"])) past = Finished tt past'
    /\ spawned past'
       = spawned past
         ++ ((fun p => publish_args (arch flags) (output flags) p.1 p.2) <$> todo)
    /\ last past' = Some (Log [JStr "Done"]).
Proof.
  intros todo Hall. unfold andThen at 1. unfold log at 1.
  destruct (publish_each (arch flags) (output flags) todo
              (past ++ [Log [JStr "Publishing..."]]) Hall) as (past' & Hloop & Hspawned).
  exists (past' ++ [Log [JStr "Done"]]).
  unfold andThen. rewrite for_each_pairs. fold todo. rewrite Hloop.
  split; [done|]. split; [|by rewrite last_snoc].
  rewrite spawned_app, Hspawned, spawned_app. simpl. by rewrite !app_nil_r.
Qed.

(** X11. With regions given in the flags, none of them ["*"], and every
    [aws] call going well, the command checks the command line and then
    publishes every layer in every region, one process for each pair,
    region by region in the order of the flags, and ends by logging
    ["Done"].  It starts no other process. *)
Theorem publishes_every_layer_in_every_region (flags : Flags) (past : list Action) :
  let todo := pairs (JStr <$> region flags) (JStr <$> layer flags) in
  region flags <> [] ->
  existsb (String.eqb "*") (region flags) = false ->
  answers sh version_args ->
  (forall p, p ∈ todo -> publishes P sh (publish_args (arch flags) (output flags) p.1 p.2)) ->
  exists past',
    run P sh flags past = Finished tt past'
    /\ spawned past'
       = spawned past
         ++ version_args
            :: ((fun p => publish_args (arch flags) (output flags) p.1 p.2) <$> todo)
    /\ last past' = Some (Log [JStr "Done"]).
Proof.
  intros todo Hgiven Hstar Hversion Hall.
  destruct (run_checked flags past Hversion) as (checked & Hrun & Hchecked).
  destruct (publish_everywhere flags (JStr <$> region flags) checked Hall)
    as (past' & Hpublished & Hspawned & Hlast).
  assert (regions P sh flags checked = Finished (JStr <$> region flags) checked)
    as Hregions.
  { unfold regions. rewrite Hstar. clear -Hgiven.
    destruct (region flags); [by destruct Hgiven | done]. }
  exists past'. rewrite Hrun, (andThen_Finished _ _ _ _ _ Hregions).
  split; [exact Hpublished|].
  split; [|exact Hlast]. rewrite Hspawned, Hchecked, <- app_assoc. done.
Qed.

(** X12. With ["*"] among the regions of the flags, the regions
    published to are the ones [aws ec2 describe-regions] lists, in the
    order it lists them; the other regions of the flags play no part. *)
Theorem star_means_every_listed_region (flags : Flags) (names : list JsValue)
    (past : list Action) :
  let todo := pairs names (JStr <$> layer flags) in
  existsb (String.eqb "*") (region flags) = true ->
  answers sh version_args ->
  (forall past,
      exists stdout,
        sp_status (spawnSync sh past describe_regions_args) = Some 0
        /\ sp_stdout (spawnSync sh past describe_regions_args) = Some stdout
        /\ JSON_parse P (trim sh stdout) = Normal (JArr names)) ->
  (forall p, p ∈ todo -> publishes P sh (publish_args (arch flags) (output flags) p.1 p.2)) ->
  exists past',
    run P sh flags past = Finished tt past'
    /\ spawned past'
       = spawned past
         ++ version_args :: describe_regions_args
            :: ((fun p => publish_args (arch flags) (output flags) p.1 p.2) <$> todo)
    /\ last past' = Some (Log [JStr "Done"]).
Proof.
  intros todo Hstar Hversion Hlisted Hall.
  destruct (run_checked flags past Hversion) as (checked & Hrun & Hchecked).
  destruct (Hlisted (checked ++ [Debug (JStr "$" :: JStr "aws" :: describe_regions_args)]))
    as (stdout & Hstatus & Hstdout & Hparse).
  pose proof (aws_returns describe_regions_args checked stdout Hstatus Hstdout) as Haws.
  cbv zeta in Haws.
  match type of Haws with _ = Finished _ ?l => set (listed := l) in * end.
  destruct (publish_everywhere flags names listed Hall)
    as (past' & Hpublished & Hspawned & Hlast).
  exists past'. rewrite Hrun. unfold andThen at 1. unfold regions. rewrite Hstar.
  rewrite (andThen_Finished _ _ _ _ _ Haws). unfold parse. rewrite Hparse.
  unfold andThen at 1. unfold pure at 1. unfold names_of, pure at 1.
  split; [exact Hpublished|]. split; [|exact Hlast].
  rewrite Hspawned. subst listed. rewrite spawned_app, Hchecked. simpl.
  by rewrite <- !app_assoc.
Qed.

(** X13. With no region in the flags, the one region published to is
    the trimmed output of [aws configure get region]. *)
Theorem no_region_means_the_configured_region (flags : Flags) (stdout : string)
    (past : list Action) :
  let todo := pairs [JStr (trim sh stdout)] (JStr <$> layer flags) in
  region flags = [] ->
  answers sh version_args ->
  (forall past,
      sp_status (spawnSync sh past configured_region_args) = Some 0
      /\ sp_stdout (spawnSync sh past configured_region_args) = Some stdout) ->
  (forall p, p ∈ todo -> publishes P sh (publish_args (arch flags) (output flags) p.1 p.2)) ->
  exists past',
    run P sh flags past = Finished tt past'
    /\ spawned past'
       = spawned past
         ++ version_args :: configured_region_args
            :: ((fun p => publish_args (arch flags) (output flags) p.1 p.2) <$> todo)
    /\ last past' = Some (Log [JStr "Done"]).
Proof.
  intros todo Hnone Hversion Hconfigured Hall.
  destruct (run_checked flags past Hversion) as (checked & Hrun & Hchecked).
  destruct (Hconfigured
              (checked ++ [Debug (JStr "$" :: JStr "aws" :: configured_region_args)]))
    as (Hstatus & Hstdout).
  pose proof (aws_returns configured_region_args checked stdout Hstatus Hstdout) as Haws.
  cbv zeta in Haws.
  match type of Haws with _ = Finished _ ?l => set (asked := l) in * end.
  destruct (publish_everywhere flags [JStr (trim sh stdout)] asked Hall)
    as (past' & Hpublished & Hspawned & Hlast).
  exists past'. rewrite Hrun. unfold andThen at 1. unfold regions. rewrite Hnone.
  cbn [existsb]. rewrite (andThen_Finished _ _ _ _ _ Haws). unfold pure at 1.
  split; [exact Hpublished|]. split; [|exact Hlast].
  rewrite Hspawned. subst asked. rewrite spawned_app, Hchecked. simpl.
  by rewrite <- !app_assoc.
Qed.

(** X14. Publishing stops at the first [aws] call that does not exit
    with status 0: the command throws, the calls for the pairs before
    it have been made, in order, and no call is made for the pairs
    after it. *)
Theorem first_failure_stops_publishing (flags : Flags)
    (before after : list (JsValue * JsValue)) (failing : JsValue * JsValue)
    (past : list Action) :
  let args p := publish_args (arch flags) (output flags) p.1 p.2 in
  region flags <> [] ->
  existsb (String.eqb "*") (region flags) = false ->
  pairs (JStr <$> region flags) (JStr <$> layer flags) = before ++ failing :: after ->
  answers sh version_args ->
  (forall p, p ∈ before -> publishes P sh (args p)) ->
  (forall past, sp_status (spawnSync sh past (args failing)) <> Some 0) ->
  exists cause past',
    run P sh flags past = Threw cause past'
    /\ spawned past' = spawned past ++ version_args :: (args <$> before) ++ [args failing].
Proof.
  intros args Hgiven Hstar Hpairs Hversion Hbefore Hfails.
  destruct (run_checked flags past Hversion) as (checked & Hrun & Hchecked).
  assert (regions P sh flags checked = Finished (JStr <$> region flags) checked)
    as Hregions.
  { unfold regions. rewrite Hstar. clear -Hgiven.
    destruct (region flags); [by destruct Hgiven | done]. }
  rewrite Hrun, (andThen_Finished _ _ _ _ _ Hregions).
  unfold andThen at 1. unfold log at 1.
  set (started := checked ++ [Log [JStr "Publishing..."]]).
  destruct (publish_each (arch flags) (output flags) before started Hbefore)
    as (reached & Hreached & Hspawned).
  destruct (aws_throws (args failing) reached) as (cause & Haws).
  { left. apply Hfails. }
  cbv zeta in Haws.
  eexists cause, _. split.
  - apply andThen_Threw. rewrite for_each_pairs, Hpairs, for_each_app.
    rewrite (andThen_Finished _ _ _ _ _ Hreached). cbn [for_each].
    apply andThen_Threw. unfold publish. apply andThen_Threw. exact Haws.
  - rewrite !spawned_app, Hspawned. subst started.
    rewrite spawned_app, Hchecked. simpl. rewrite !app_nil_r, <- !app_assoc. done.
Qed.

End Publishing.

(** * The runtime at work

    Runs of the runtime on the sample platform, one for each of the
    statements above that has premises. *)

Lemma formatError_classifies_witness :
  formatError Runs.throwing (serializable (JNum 4))
  = {| errorType := JStr "UnknownError"; errorMessage := "4"; stackTrace := None |}
  /\ formatError Runs.throwing
       (serializable (JObj [("type", JStr "Refused"); ("cause", JStr "no")]))
     = {| errorType := JStr "Refused";
          errorMessage := Sample.quote "no";
          stackTrace := None |}.
Proof.
  destruct (formatError_classifies Runs.throwing) as (_ & Hshape & Hother).
  split.
  - apply (Hother (JNum 4)).
    + intros name message stack. discriminate.
    + intros fields. discriminate.
  - apply (Hshape [("type", JStr "Refused"); ("cause", JStr "no")]
             (JStr "Refused") (JStr "no")).
    + apply NoDup_cons. split; [|apply NoDup_singleton].
      intros Hin. by apply list_elem_of_singleton in Hin.
    + apply elem_of_cons. by left.
    + apply elem_of_cons. right. apply elem_of_cons. by left.
Defined.

Lemma protocol_failures_are_fatal_witness :
  exists said,
    loop Runs.headless Sample.runtimeUrl 1 (JFun 7) Runs.main_handler
    = Exited 1 {| process_env := process_env Runs.main_handler;
                  clock := 1005;
                  trace := [EvFetch (Sample.runtimeUrl +:+ "invocation/next") None
                              (Sample.invocation (Some "r1") None None "{}");
                            EvConsoleError said] |}.
Proof.
  destruct (protocol_failures_are_fatal Runs.headless Sample.runtimeUrl) as (Hpoll & _).
  apply (Hpoll Runs.main_handler 5 (Sample.invocation (Some "r1") None None "{}")
           (JFun 7) 0%nat).
  - reflexivity.
  - right. right. left. reflexivity.
Defined.

Lemma handler_failure_is_reported_witness :
  exists w',
    iteration Runs.throwing Sample.runtimeUrl (JFun 7) Runs.main_handler = Return tt w'
    /\ process_env w' !! "_X_AMZN_TRACE_ID" = None
    /\ formatError Runs.throwing (serializable (JNum 4))
       = {| errorType := JStr "UnknownError"; errorMessage := "4"; stackTrace := None |}.
Proof.
  unshelve epose proof
    (handler_failure_is_reported Runs.throwing Sample.runtimeUrl
       Runs.main_handler 5 Runs.event1 "r1" "t1" (JObj []) 7
       _ _ _ _ _ (JNum 4) 3 2 (Sample.answer 202) 0%nat _ _ _ _) as H;
    try reflexivity.
  destruct H as (Hturn & _ & Hslot & _ & _ & _ & _ & _ & Hother).
  eexists. split; [exact Hturn|]. split; [exact Hslot|].
  apply Hother.
  - intros name message stack. discriminate.
  - intros fields. discriminate.
Defined.

Lemma timeout_is_reported_witness :
  exists w',
    iteration Runs.hanging Sample.runtimeUrl (JFun 7) Runs.main_handler = Return tt w'
    /\ clock w' = 1502
    /\ includes "495" (Bun_inspect Runs.hanging (JStr "Function timed out after 495ms"))
       = true.
Proof.
  unshelve epose proof
    (timeout_is_reported Runs.hanging Sample.runtimeUrl
       Runs.main_handler 5 Runs.event1 "r1" "t1" (JObj []) 7
       _ _ _ _ _ 2 (Sample.answer 202) 0%nat _ _ _) as H;
    try reflexivity.
  { left. reflexivity. }
  destruct H as (Hturn & _ & _ & Hclock & _ & _ & _ & Hshown & _).
  eexists. split; [exact Hturn|]. split; [exact Hclock|].
  apply Hshown. intros text. exact (includes_app text Sample.dquote Sample.dquote).
Defined.

Lemma handler_result_body_witness :
  exists w',
    iteration Runs.returning Sample.runtimeUrl (JFun 7) Runs.main_handler = Return tt w'
    /\ last (trace w')
       = Some (EvFetch (Sample.runtimeUrl +:+ "invocation/r1/response")
                 (Some (response_options (Sample.stringify (JObj [("n", JNum 1)]))))
                 (Sample.answer 202)).
Proof.
  unshelve epose proof
    (handler_result_body Runs.returning Sample.runtimeUrl
       Runs.main_handler 5 Runs.event1 "r1" "t1" (JObj []) 7
       _ _ _ _ _ (JObj [("n", JNum 1)]) 10 2 (Sample.answer 202) _ _ _) as H;
    try reflexivity.
  destruct H as (_ & _ & _ & _ & _ & H).
  eexists. split; [apply H|]; reflexivity.
Defined.

Lemma trace_id_is_set_then_cleared_witness :
  exists w' sent,
    iteration Runs.throwing Sample.runtimeUrl (JFun 7) Runs.main_handler = Return tt w'
    /\ trace w' = [EvFetch (Sample.runtimeUrl +:+ "invocation/next") None Runs.event1;
                   EvCall 7 (JObj []) (Some "t1");
                   sent]
    /\ process_env w' !! "_X_AMZN_TRACE_ID" = None.
Proof.
  refine (proj2 (trace_id_is_set_then_cleared Runs.throwing Sample.runtimeUrl
                   Runs.main_handler 5 Runs.event1 "r1" "t1" (JObj []) 7
                   _ _ _ _ _ _));
    try reflexivity.
  intros href [options|]; reflexivity.
Defined.

Lemma handler_resolution_witness :
  init Runs.hanging Sample.runtimeUrl (Sample.process "both.handler")
  = Return (JFun 1) (importing (Sample.process "both.handler") "/var/task/both").
Proof.
  refine (proj1 (handler_resolution Runs.hanging Sample.runtimeUrl
                   (Sample.process "both.handler") "both.handler" "/var/task" _ _
                   (JObj [("default", JFun 1); ("handler", JFun 2)]) _));
    reflexivity.
Defined.

Lemma missing_module_is_reported_witness :
  exists w',
    main Runs.hanging 3 (Sample.process "nothere.handler") = Exited 1 w'
    /\ clock w' = 1002.
Proof.
  unshelve epose proof
    (missing_module_is_reported Runs.hanging (Sample.process "nothere.handler")
       "127.0.0.1:9001" "nothere.handler" "/var/task" _ _ _
       "ResolveMessage" "Cannot find module '/var/task/nothere'" None 3 _ _) as H;
    try reflexivity.
  destruct H as (H & _). eexists. split; [exact H | reflexivity].
Defined.

(** C6, as stated, fails: with the task root [/var/task] and the
    handler identifier [nothere.handler] the runtime tries the path
    [/var/task/nothere], which is not found; the error it reports is of
    type ["FileDoesNotExist"], but its message does not include that
    path, only the module name. *)
Lemma missing_module_message_lacks_path :
  let w := Sample.process "nothere.handler" in
  let message := Sample.inspect (JStr "Did not find a file named 'nothere'") in
  let envelope := {| errorType := JStr "FileDoesNotExist";
                     errorMessage := message;
                     stackTrace := None |} in
  import_ Runs.hanging "/var/task/nothere"
  = Throws (JError "ResolveMessage" "Cannot find module '/var/task/nothere'" None)
  /\ main Runs.hanging 1 w
     = Exited 1 {| process_env := process_env w;
                   clock := 1002;
                   trace := [EvImport "/var/task/nothere";
                             EvConsoleError
                               [JObj [("type", JStr "FileDoesNotExist");
                                      ("cause", JStr "Did not find a file named 'nothere'")]];
                             EvFetch (Sample.runtimeUrl +:+ "init/error")
                               (Some (error_options Runs.hanging envelope))
                               (Sample.answer 202);
                             EvConsoleError []] |}
  /\ includes "/var/task/nothere" message = false
  /\ includes "nothere" message = true.
Proof. repeat split. Qed.

(** ** Further runs *)

Example env_fallback :
  env "AWS_REGION" (Some "us-east-1") Runs.main_handler = Return "us-east-1" Runs.main_handler.
Proof. reflexivity. Qed.

Example env_missing :
  env "AWS_REGION" None Runs.main_handler
  = Exited 1 {| process_env := process_env Runs.main_handler;
                clock := 1000;
                trace := [EvConsoleError
                            [JStr "Runtime failed to find the 'AWS_REGION' environment variable"]] |}.
Proof. reflexivity. Qed.

Example budget_with_deadline :
  durationMs (Some 1500) Runs.main_handler = Return 500 Runs.main_handler
  /\ durationMs (Some 900) Runs.main_handler = Return 1 Runs.main_handler.
Proof. split; reflexivity. Qed.

Example native_failure_lines :
  formatError Runs.hanging
    (JError "Error" "boom" (Some ("Error: boom" +:+ String newline "    at handler")))
  = {| errorType := JStr "Error";
       errorMessage := "boom";
       stackTrace := Some ["Error: boom"; "    at handler"] |}.
Proof. reflexivity. Qed.

Example handler_without_dot :
  lastIndexOf "."%char "main" = -1
  /\ substring 0 (-1) "main" = EmptyString
  /\ substring_from 0 "main" = "main".
Proof. repeat split. Qed.

Example method_missing :
  trace (state_of (main Runs.hanging 1 (Sample.process "main.nope"))) !! 2%nat
       = Some (EvFetch (Sample.runtimeUrl +:+ "init/error")
                 (Some (error_options Runs.hanging
                          {| errorType := JStr "MethodDoesNotExist";
                             errorMessage :=
                               Sample.inspect
                                 (JStr "main does not an function export 'nope' (handler is undefined)");
                             stackTrace := None |}))
                 (Sample.answer 202)).
Proof. reflexivity. Qed.

(** ** The rest of a run *)

Lemma turn_is_poll_call_report_witness :
  exists response payload tid href options response',
    trace (state_of (iteration Cases.greeting Sample.runtimeUrl (JFun 7) Runs.main_handler))
    = [EvFetch (Sample.runtimeUrl +:+ "invocation/next") None response;
       EvCall 7 payload (Some tid);
       EvFetch href (Some options) response']
    /\ ok response' = true.
Proof.
  destruct (turn_is_poll_call_report Cases.greeting Sample.runtimeUrl 7 Runs.main_handler
              (state_of (iteration Cases.greeting Sample.runtimeUrl (JFun 7)
                           Runs.main_handler)) eq_refl)
    as (response & id & tid & payload & href & options & response' & Htrace & _ & _ & _
        & _ & _ & Hok & _).
  by exists response, payload, tid, href, options, response'.
Defined.


Lemma init_returns_a_function_witness :
  init Cases.greeting Sample.runtimeUrl Runs.main_handler
  = Return (JFun 7) (importing Runs.main_handler "/var/task/main")
  /\ exists fid, JFun 7 = JFun fid.
Proof.
  split; [reflexivity|].
  exact (proj1 (init_returns_a_function Cases.greeting Sample.runtimeUrl
                  Runs.main_handler (importing Runs.main_handler "/var/task/main")
                  (JFun 7) eq_refl)).
Defined.

Lemma missing_configuration_is_fatal_witness :
  exists name,
    process_env {| process_env := ∅; clock := 0; trace := [] |} !! name = None
    /\ main Cases.greeting 2 {| process_env := ∅; clock := 0; trace := [] |}
       = Exited 1 {| process_env := ∅; clock := 0;
                     trace := [EvConsoleError
                                 [JStr ("Runtime failed to find the '" +:+ name
                                        +:+ "' environment variable")]] |}.
Proof.
  apply (missing_configuration_is_fatal Cases.greeting 2
           {| process_env := ∅; clock := 0; trace := [] |}).
  left. reflexivity.
Defined.

Lemma import_failure_is_reported_witness :
  main Cases.broken 2 Runs.main_handler
  = Exited 1 (init_failure Cases.broken Sample.runtimeUrl
                (JObj [("type", JStr "InitError");
                       ("cause", JError "SyntaxError" "Unexpected token" None)])
                (importing Runs.main_handler "/var/task/main")).
Proof.
  refine (proj1 (import_failure_is_reported Cases.broken Runs.main_handler
                   "127.0.0.1:9001" "main.handler" "/var/task"
                   (JError "SyntaxError" "Unexpected token" None) 2 _ _ _ _ _));
    try reflexivity.
  intros name message stack [= _ <- _]. reflexivity.
Defined.

Lemma cold_start_fails_with_at_most_one_report_witness :
  process_env (state_of (init Cases.broken Sample.runtimeUrl Runs.main_handler))
  = process_env Runs.main_handler.
Proof.
  exact (proj1 (proj2 (cold_start_fails_with_at_most_one_report Cases.broken
                         Sample.runtimeUrl Runs.main_handler
                         (state_of (init Cases.broken Sample.runtimeUrl Runs.main_handler))
                         1 eq_refl))).
Defined.

Lemma budget_from_deadline_header_witness :
  bind (receiveRequest Cases.greeting Sample.runtimeUrl)
    (fun request => durationMs (deadlineMs request)) Runs.main_handler
  = Return 495 (answered Runs.main_handler (Sample.runtimeUrl +:+ "invocation/next") None
                  5 Runs.event1).
Proof.
  refine (proj1 (budget_from_deadline_header Cases.greeting Sample.runtimeUrl
                   Runs.main_handler 5 Runs.event1 "r1" "t1" (JObj []) _ _ _ _ _));
    reflexivity.
Defined.

Lemma runtime_keeps_the_environment_witness :
  process_env (state_of (main Cases.greeting 2 Runs.main_handler)) !! "_HANDLER"
  = Some "main.handler".
Proof.
  rewrite (runtime_keeps_the_environment Cases.greeting 2 Runs.main_handler "_HANDLER");
    [reflexivity | discriminate].
Defined.

(** ** The publish command at work *)

Lemma publish_needs_the_aws_cli_witness :
  exists cause past',
    PublishCommand.run Cases.reader (Cases.shell false) (Cases.flags_for ["us-east-1"]) []
    = PublishCommand.Stopped PublishCommand.install_message 1 past'
    /\ last past' = Some (PublishCommand.Debug [cause]).
Proof.
  destruct (publish_needs_the_aws_cli Cases.reader (Cases.shell false)
              (Cases.flags_for ["us-east-1"]) []) as (cause & Hrun).
  { right. reflexivity. }
  exists cause. eexists. split; [exact Hrun | reflexivity].
Defined.

(** Each of the listed calls goes well on the sample shell. *)
Ltac goes_well :=
  intros p Hp;
  repeat (apply elem_of_cons in Hp as [->|Hp]);
  [intros past; by eexists _, _ ..|by apply elem_of_nil in Hp].

Lemma publishes_every_layer_in_every_region_witness :
  exists past',
    PublishCommand.run Cases.reader (Cases.shell true)
      (Cases.flags_for ["us-east-1"; "ap-south-1"]) []
    = PublishCommand.Finished tt past'
    /\ length (PublishCommand.spawned past') = 5%nat.
Proof.
  destruct (publishes_every_layer_in_every_region Cases.reader (Cases.shell true)
              (Cases.flags_for ["us-east-1"; "ap-south-1"]) [])
    as (past' & Hrun & Hspawned & _).
  - discriminate.
  - reflexivity.
  - intros past. by eexists.
  - goes_well.
  - exists past'. split; [exact Hrun|]. by rewrite Hspawned.
Defined.

Lemma star_means_every_listed_region_witness :
  exists past',
    PublishCommand.run Cases.reader (Cases.shell true)
      (Cases.flags_for ["nowhere"; "*"]) []
    = PublishCommand.Finished tt past'
    /\ length (PublishCommand.spawned past') = 6%nat.
Proof.
  destruct (star_means_every_listed_region Cases.reader (Cases.shell true)
              (Cases.flags_for ["nowhere"; "*"]) [JStr "us-east-1"; JStr "eu-west-1"] [])
    as (past' & Hrun & Hspawned & _).
  - reflexivity.
  - intros past. by eexists.
  - intros past. by eexists.
  - goes_well.
  - exists past'. split; [exact Hrun|]. by rewrite Hspawned.
Defined.

Lemma no_region_means_the_configured_region_witness :
  exists past',
    PublishCommand.run Cases.reader (Cases.shell true) (Cases.flags_for []) []
    = PublishCommand.Finished tt past'
    /\ PublishCommand.spawned past' !! 2%nat
       = Some (PublishCommand.publish_args "x64" "layer.zip" (JStr "eu-west-1")
                 (JStr "bun-task")).
Proof.
  destruct (no_region_means_the_configured_region Cases.reader (Cases.shell true)
              (Cases.flags_for []) "eu-west-1" [])
    as (past' & Hrun & Hspawned & _).
  - reflexivity.
  - intros past. by eexists.
  - intros past. by split.
  - goes_well.
  - exists past'. split; [exact Hrun|]. by rewrite Hspawned.
Defined.

Lemma first_failure_stops_publishing_witness :
  exists cause past',
    PublishCommand.run Cases.reader (Cases.shell true)
      (Cases.flags_for ["us-east-1"; "nowhere"; "eu-west-1"]) []
    = PublishCommand.Threw cause past'
    /\ length (PublishCommand.spawned past') = 4%nat.
Proof.
  destruct (first_failure_stops_publishing Cases.reader (Cases.shell true)
              (Cases.flags_for ["us-east-1"; "nowhere"; "eu-west-1"])
              [(JStr "us-east-1", JStr "bun-task"); (JStr "us-east-1", JStr "bun-task-next")]
              [(JStr "nowhere", JStr "bun-task-next");
               (JStr "eu-west-1", JStr "bun-task"); (JStr "eu-west-1", JStr "bun-task-next")]
              (JStr "nowhere", JStr "bun-task") [])
    as (cause & past' & Hrun & Hspawned).
  - discriminate.
  - reflexivity.
  - reflexivity.
  - intros past. by eexists.
  - goes_well.
  - intros past. discriminate.
  - exists cause, past'. split; [exact Hrun|]. by rewrite Hspawned.
Defined.

(** ** Further runs, continued *)

Example handler_identifier_with_dots :
  let handlerName := "src/handlers.v2.main" in
  let index := lastIndexOf "."%char handlerName in
  index = 15
  /\ substring 0 index handlerName = "src/handlers.v2"
  /\ substring_from (index + 1) handlerName = "main".
Proof. repeat split. Qed.

Example failed_call_message :
  exists past',
    PublishCommand.aws Cases.reader (Cases.shell true)
      [JStr "lambda"; JNull; JStr "x"; JStr "y"; JStr "z"; JStr "nowhere"] []
    = PublishCommand.Threw
        (JError "Error"
           "aws lambda  x y z nowhere exited with 254: Could not connect to the endpoint URL"
           None)
        past'.
Proof. eexists. reflexivity. Qed.
